(** * Interactive LLM chat: a shallow embedding of [interactive_llm_chat.py]

    The program is orchestration code around two vendor objects ([VDevice] and
    [LLM]): it lists model files, shows a menu, runs a line-oriented chat loop
    and releases the two handles.  The embedding keeps that shape:

    - text is [string]; a character is a code point below 256, and the Python
      string methods the program calls ([strip], [lower], [startswith],
      slicing, [split], [in], [int]) are written out on it in [Module Py];
    - standard input is a list of [input_event]s, one per call of [input];
      when the list is used up the program is waiting for input ([Blocked]);
      Ctrl-C is such an event: it is modelled where the program waits at a
      prompt, not while a call into the runtime is running;
    - everything the program does to the outside world (printing, logging,
      calls into the vendor runtime) is recorded, in order, as a list of
      [event]s;
    - the vendor runtime is a record of operations ([Runtime]) that either
      return or raise; every theorem quantifies over it. *)

From Stdlib Require Import Bool Ascii String List ZArith NArith Lia.
From Stdlib Require Import Permutation Sorted QArith_base DecimalString.
From Stdlib Require DecimalNat DecimalFacts.
Import ListNotations.

Local Close Scope Q_scope.
Local Open Scope string_scope.
Local Open Scope list_scope.

(** ** Python built-ins *)

Module Py.

(** The newline character of the source's ["\n"]. *)
Definition nl : string := String (ascii_of_nat 10) EmptyString.

(** [s * n] *)
Fixpoint mul (s : string) (n : nat) : string :=
match n with
| O => ""
| S k => s ++ mul s k
end.

(** [str.isspace] of one character (code points below 256): TAB..CR,
  FS..US, SPACE, NEL and NBSP. *)
Definition isspace (c : ascii) : bool :=
let n := N_of_ascii c in
(((9 <=? n) && (n <=? 13)) || ((28 <=? n) && (n <=? 32))
 || (n =? 133) || (n =? 160))%N.

(** [str.lower] of one character: A..Z and the upper-case letters of the
  Latin-1 supplement (multiplication sign excluded) move up by 32. *)
Definition isupper (c : ascii) : bool :=
let n := N_of_ascii c in
(((65 <=? n) && (n <=? 90))
 || ((192 <=? n) && (n <=? 222) && negb (n =? 215)))%N.

Definition lower_char (c : ascii) : ascii :=
if isupper c then ascii_of_N (N_of_ascii c + 32) else c.

Fixpoint lower (s : string) : string :=
match s with
| EmptyString => EmptyString
| String c r => String (lower_char c) (lower r)
end.

Fixpoint lstrip (s : string) : string :=
match s with
| EmptyString => EmptyString
| String c r => if isspace c then lstrip r else s
end.

Fixpoint rstrip (s : string) : string :=
match s with
| EmptyString => EmptyString
| String c r =>
    match rstrip r with
    | EmptyString => if isspace c then EmptyString else String c EmptyString
    | r' => String c r'
    end
end.

(** [s.strip()] *)
Definition strip (s : string) : string := rstrip (lstrip s).

(** [s.startswith(p)] *)
Definition startswith (s p : string) : bool := String.prefix p s.

(** [s[n:]] *)
Fixpoint slice_from (n : nat) (s : string) : string :=
match n, s with
| O, _ => s
| S k, String _ r => slice_from k r
| S _, EmptyString => EmptyString
end.

(** [s[:n]] *)
Fixpoint slice_to (n : nat) (s : string) : string :=
match n, s with
| O, _ => EmptyString
| S k, String c r => String c (slice_to k r)
| S _, EmptyString => EmptyString
end.

(** [s.endswith(p)] *)
Definition endswith (s p : string) : bool :=
(String.length p <=? String.length s)%nat
&& (slice_from (String.length s - String.length p) s =? p).

(** [sub in s] *)
Fixpoint contains (sub s : string) : bool :=
match s with
| EmptyString => String.prefix sub EmptyString
| String _ r => String.prefix sub s || contains sub r
end.

(** [s.rfind(c)] for a one-character [c]; [None] stands for [-1]. *)
Fixpoint rfind (c : ascii) (s : string) : option nat :=
match s with
| EmptyString => None
| String a r =>
    match rfind c r with
    | Some i => Some (S i)
    | None => if (a =? c)%char then Some O else None
    end
end.

(** [s.split(sep)] for a non-empty [sep].  [skip] counts the characters of
  a separator just found that are still to be passed over. *)
Fixpoint split_from (sep : string) (skip : nat) (s : string) : list string :=
match s with
| EmptyString => [EmptyString]
| String c r =>
    match skip with
    | S k => split_from sep k r
    | O =>
        if String.prefix sep s
        then EmptyString :: split_from sep (String.length sep - 1) r
        else match split_from sep O r with
             | piece :: pieces => String c piece :: pieces
             | [] => [String c EmptyString]
             end
    end
end.

Definition split (s sep : string) : list string := split_from sep O s.

(** [int(s)]: [None] stands for [ValueError].  Optional sign, then decimal
  digits in which single underscores may separate digits. *)
Definition digit_value (c : ascii) : option Z :=
let n := N_of_ascii c in
if ((48 <=? n) && (n <=? 57))%N then Some (Z.of_N (n - 48)) else None.

Fixpoint int_digits (acc : Z) (after_digit : bool) (s : string) : option Z :=
match s with
| EmptyString => if after_digit then Some acc else None
| String c r =>
    match digit_value c with
    | Some d => int_digits (10 * acc + d) true r
    | None =>
        if (c =? "_")%char && after_digit
        then int_digits acc false r
        else None
    end
end.

Definition int (s : string) : option Z :=
match strip s with
| String "+" r => int_digits 0 false r
| String "-" r => option_map Z.opp (int_digits 0 false r)
| r => int_digits 0 false r
end.

(** [str(n)] for a natural number. *)
Definition str_of_nat (n : nat) : string :=
NilEmpty.string_of_uint (Nat.to_uint n).

(** [sorted(l, key=key)] with string keys: a stable sort, strings compared
  by code point. *)
Section Sorted.
Context {A : Type} (key : A -> string).

Fixpoint insert (x : A) (l : list A) : list A :=
  match l with
  | [] => [x]
  | y :: r =>
      if String.leb (key x) (key y) then x :: y :: r else y :: insert x r
  end.

Definition sorted (l : list A) : list A := fold_right insert [] l.
End Sorted.

End Py.

(** ** Data model *)

(** A turn of the transcript: the source's
    [{"role": r, "content": [{"type": "text", "text": t}]}]. *)
Inductive role := system | user | assistant.

Record turn := mk_turn { turn_role : role; turn_text : string }.

Definition transcript := list turn.

Definition system_turn (system_prompt : string) : turn :=
  mk_turn system system_prompt.

(** A [pathlib.Path], kept as the directory part (with its final separator,
    empty when there is none) and the final component. *)
Record Path := mk_Path { parent : string; name : string }.

(** [str(p)] *)
Definition Path_str (p : Path) : string := parent p ++ name p.

(** [Path(s)], for [s] in pathlib's normal form (no trailing separator). *)
Definition Path_of (s : string) : Path :=
  match Py.rfind "/" s with
  | Some i => mk_Path (Py.slice_to (S i) s) (Py.slice_from (S i) s)
  | None => mk_Path "" s
  end.

(** [d / n] *)
Definition joinpath (d n : string) : Path := mk_Path (d ++ "/") n.

(** [PurePath.stem] on the final component: the name up to its last dot,
    unless that dot is the first or the last character. *)
Definition name_stem (n : string) : string :=
  match Py.rfind "." n with
  | Some i =>
      if ((0 <? i) && (i <? String.length n - 1))%nat
      then Py.slice_to i n
      else n
  | None => n
  end.

Definition stem (p : Path) : string := name_stem (name p).

(** What is at the place of the models directory.  [Directory entries]
    lists the names in the order the directory scan yields them. *)
Inductive dir_state :=
| Missing
| NotADirectory
| Directory (entries : list string).

(** One call of [input]: a line (without its newline), end of input
    ([EOFError]) or Ctrl-C ([KeyboardInterrupt]). *)
Inductive input_event :=
| Line (s : string)
| EOF
| Interrupt.

(** Exceptions in flight.  [Exception msg] is an instance of any other
    subclass of [Exception] whose [str] is [msg]; [EOFError] is a subclass
    of [Exception] too, [KeyboardInterrupt] is not. *)
Inductive exn :=
| EOFError
| KeyboardInterrupt
| Exception (msg : string).

Definition exn_str (e : exn) : string :=
  match e with
  | EOFError => "EOF when reading a line"
  | KeyboardInterrupt => ""
  | Exception msg => msg
  end.

Definition is_Exception (e : exn) : bool :=
  match e with
  | KeyboardInterrupt => false
  | _ => true
  end.

(** How a piece of the program ends: it returns, an exception propagates,
    [sys.exit(code)] was called, or it waits in [input] for a line that the
    given input does not contain. *)
Inductive outcome (A : Type) :=
| Return (a : A)
| Raise (e : exn)
| Exit (code : Z)
| Blocked.
Arguments Return {A} a.
Arguments Raise {A} e.
Arguments Exit {A} code.
Arguments Blocked {A}.

(** A call into the vendor runtime either returns or raises an
    [Exception] with the given message. *)
Inductive result (A : Type) :=
| Returns (a : A)
| Raises (msg : string).
Arguments Returns {A} a.
Arguments Raises {A} msg.

Inductive call :=
| VDevice_create_params
| VDevice_init (group_id : string)
| LLM_init (hef_path : string)
| LLM_generate_all (prompt : transcript) (temperature : Q)
                   (max_generated_tokens : nat)
| LLM_clear_context
| LLM_release
| VDevice_release.

(** What the program does, in order. *)
Inductive event :=
| Print (text : string)        (* print(text) *)
| PrintNoEnd (text : string)   (* print(text, end="", flush=True) *)
| Input (prompt : string)      (* input(prompt) is called *)
| LogError (text : string)
| LogWarning (text : string)
| Call (c : call).

(** The vendor runtime ([hailo_platform]).  A model handle has a state that
    its operations change; a handle object is truthy. *)
Record Runtime := {
  vdevice : Type;
  llm : Type;
  create_params : result unit;
  VDevice : string -> result vdevice;
  LLM : vdevice -> string -> result llm;
  generate_all : llm -> transcript -> Q -> nat -> result string * llm;
  clear_context : llm -> result unit * llm;
  llm_release : llm -> result unit;
  vdevice_release : vdevice -> result unit
}.

(** The constants imported from [hailo_apps.python.core.common.defines],
    which is not part of the sources at hand. *)
Record Defines := {
  SHARED_VDEVICE_GROUP_ID : string;
  HAILO10H_ARCH : string;
  RESOURCES_ROOT_PATH_DEFAULT : string;
  RESOURCES_MODELS_DIR_NAME : string
}.

(** Modelled from the spec: the model file extension, also imported from
    [defines]; the source's own comments and help texts name it
    (".hef files", "Try adding .hef extension"). *)
Definition HAILO_FILE_EXTENSION : string := ".hef".

(** The file system as the program looks at it. *)
Record FileSystem := {
  path_exists : string -> bool;
  models_dir_state : dir_state
}.

(** [argparse] result. *)
Record Args := {
  hef_path : option string;
  system_prompt : string
}.

Definition default_system_prompt : string := "You are a helpful assistant.".

(** ** Model Locator *)

Definition llm_patterns : list string :=
  ["qwen"; "llama"; "mistral"; "gemma"; "phi"; "instruct"; "chat"; "coder"].

(** [Path.exists] on the models directory. *)
Definition dir_exists (d : dir_state) : bool :=
  match d with
  | Missing => false
  | _ => true
  end.

(** [dir.glob("*" + suffix)] for a [suffix] without wildcard characters, on
    a case-sensitive file system: the entries whose name ends with [suffix],
    in scan order.  Nothing is yielded for what is not a directory. *)
Definition glob_suffix (dir : string) (d : dir_state) (suffix : string)
  : list Path :=
  match d with
  | Directory entries =>
      map (joinpath dir) (filter (fun n => Py.endswith n suffix) entries)
  | _ => []
  end.

Definition looks_like_llm (hef_file : Path) : bool :=
  let name_lower := Py.lower (stem hef_file) in
  existsb (fun pattern => Py.contains pattern name_lower) llm_patterns.

Definition sort_key (p : Path) : string := Py.lower (stem p).

Section Locator.
Variable D : Defines.

Definition models_dir : string :=
  RESOURCES_ROOT_PATH_DEFAULT D ++ "/" ++ RESOURCES_MODELS_DIR_NAME D
  ++ "/" ++ HAILO10H_ARCH D.

Definition get_downloaded_llm_models (d : dir_state) : list Path :=
  if negb (dir_exists d) then []
  else
    let models :=
      filter looks_like_llm (glob_suffix models_dir d HAILO_FILE_EXTENSION) in
    Py.sorted sort_key models.
End Locator.

(** ** Model Selector *)

Definition rule : string := Py.mul "=" 60.

Fixpoint menu_lines (i : nat) (models : list Path) : list event :=
  match models with
  | [] => []
  | model :: rest =>
      Print ("  [" ++ Py.str_of_nat i ++ "] " ++ stem model)
      :: menu_lines (S i) rest
  end.

Definition select_prompt : string :=
  Py.nl ++ "Select model number (or 'q' to quit): ".

(** The [while True] loop of [select_model]: one input per iteration. *)
Fixpoint select_loop (models : list Path) (inputs : list input_event)
  : list event * list input_event * outcome Path :=
  match inputs with
  | [] => ([Input select_prompt], [], Blocked)
  | EOF :: rest => ([Input select_prompt], rest, Raise EOFError)
  | Interrupt :: rest => ([Input select_prompt], rest, Raise KeyboardInterrupt)
  | Line raw :: rest =>
      let choice := Py.strip raw in
      if Py.lower choice =? "q" then
        ([Input select_prompt; Print "Exiting..."], rest, Exit 0%Z)
      else
        match Py.int choice with
        | Some n =>
            let idx := (n - 1)%Z in
            if ((0 <=? idx) && (idx <? Z.of_nat (List.length models)))%Z then
              match nth_error models (Z.to_nat idx) with
              | Some model => ([Input select_prompt], rest, Return model)
              | None => ([Input select_prompt], rest,
                         Raise (Exception "list index out of range"))
              end
            else
              let '(out, rest', r) := select_loop models rest in
              (Input select_prompt
               :: Print ("Please enter a number between 1 and "
                         ++ Py.str_of_nat (List.length models))
               :: out, rest', r)
        | None =>
            (* except ValueError *)
            let '(out, rest', r) := select_loop models rest in
            (Input select_prompt :: Print "Please enter a valid number" :: out,
             rest', r)
        end
  end.

Definition select_model (models : list Path) (inputs : list input_event)
  : list event * list input_event * outcome Path :=
  let menu :=
    [Print (Py.nl ++ rule); Print "Available LLM Models"; Print rule]
    ++ menu_lines 1 models ++ [Print rule] in
  let '(out, rest, r) := select_loop models inputs in
  (menu ++ out, rest, r).

(** ** Chat Loop, Bootstrapper and entry point *)

(** The fixed trailing-metadata marker of the response clean-up. *)
Definition metadata_marker : string := ". [{'type'".

(** [response.split(marker)[0]] *)
Definition clean (response : string) : string :=
  hd EmptyString (Py.split response metadata_marker).

Definition temperature : Q := (7 # 10)%Q.
Definition max_generated_tokens : nat := 500.

Inductive flow := Continue | Break.

Section Program.
Variable D : Defines.
Variable R : Runtime.
Variable fs : FileSystem.

(** The local variables of [interactive_chat] that the loop changes, and
    the state of the model handle it was given. *)
Record chat_state := mk_chat {
  conversation : transcript;
  active_prompt : string;
  handle : llm R
}.

Definition chat_prompt : string := "You: ".

(** [/clear] *)
Definition on_clear (st : chat_state)
  : chat_state * list event * outcome flow :=
  match clear_context R (handle st) with
  | (Returns _, h) =>
      (mk_chat [system_turn (active_prompt st)] (active_prompt st) h,
       [Input chat_prompt; Call LLM_clear_context;
        Print ("Context cleared." ++ Py.nl)],
       Return Continue)
  | (Raises msg, h) =>
      (mk_chat (conversation st) (active_prompt st) h,
       [Input chat_prompt; Call LLM_clear_context],
       Raise (Exception msg))
  end.

(** [/system <prompt>]; [new_system] is the stripped rest of the line.
    [system_prompt] is assigned before the context reset. *)
Definition on_system (st : chat_state) (new_system : string)
  : chat_state * list event * outcome flow :=
  if negb (new_system =? "") then
    match clear_context R (handle st) with
    | (Returns _, h) =>
        (mk_chat [system_turn new_system] new_system h,
         [Input chat_prompt; Call LLM_clear_context;
          Print ("System prompt updated to: " ++ new_system ++ Py.nl)],
         Return Continue)
    | (Raises msg, h) =>
        (mk_chat (conversation st) new_system h,
         [Input chat_prompt; Call LLM_clear_context],
         Raise (Exception msg))
    end
  else
    (st,
     [Input chat_prompt; Print ("Please provide a system prompt." ++ Py.nl)],
     Return Continue).

(** Any other non-empty line: a user turn, then the generation call. *)
Definition on_utterance (st : chat_state) (user_input : string)
  : chat_state * list event * outcome flow :=
  let conversation1 := conversation st ++ [mk_turn user user_input] in
  let asked :=
    [Input chat_prompt; PrintNoEnd (Py.nl ++ "Assistant: ");
     Call (LLM_generate_all conversation1 temperature
                            max_generated_tokens)] in
  match generate_all R (handle st) conversation1 temperature
                     max_generated_tokens with
  | (Returns response, h) =>
      let clean_response := clean response in
      (mk_chat (conversation1 ++ [mk_turn assistant clean_response])
               (active_prompt st) h,
       asked ++ [Print clean_response; Print ""],
       Return Continue)
  | (Raises msg, h) =>
      (mk_chat conversation1 (active_prompt st) h, asked,
       Raise (Exception msg))
  end.

(** The body of the [try] of one loop iteration.  [Return Continue] is a
    [continue] or the end of the body, [Return Break] a [break]. *)
Definition try_body (st : chat_state) (ev : input_event)
  : chat_state * list event * outcome flow :=
  match ev with
  | EOF => (st, [Input chat_prompt], Raise EOFError)
  | Interrupt => (st, [Input chat_prompt], Raise KeyboardInterrupt)
  | Line raw =>
      let user_input := Py.strip raw in
      if user_input =? "" then
        (st, [Input chat_prompt], Return Continue)
      else if existsb (String.eqb (Py.lower user_input)) ["/quit"; "/exit"]
      then
        (st, [Input chat_prompt; Print (Py.nl ++ "Goodbye!")], Return Break)
      else if Py.lower user_input =? "/clear" then
        on_clear st
      else if Py.startswith (Py.lower user_input) "/system " then
        on_system st (Py.strip (Py.slice_from 8 user_input))
      else
        on_utterance st user_input
  end.

(** One iteration with its [except] clauses: [KeyboardInterrupt] leaves
    the loop, any [Exception] is logged, shown and the loop goes on. *)
Definition chat_iteration (st : chat_state) (ev : input_event)
  : chat_state * list event * outcome flow :=
  let '(st', out, r) := try_body st ev in
  match r with
  | Raise KeyboardInterrupt =>
      (st', out ++ [Print (Py.nl ++ Py.nl ++ "Interrupted. Goodbye!")],
       Return Break)
  | Raise e =>
      if is_Exception e then
        (st',
         out ++ [LogError ("Error generating response: " ++ exn_str e);
                 Print (Py.nl ++ "Error: " ++ exn_str e ++ Py.nl)],
         Return Continue)
      else (st', out, Raise e)
  | r => (st', out, r)
  end.

(** [while True]: one input per iteration. *)
Fixpoint chat_loop (st : chat_state) (inputs : list input_event)
  : chat_state * list event * list input_event * outcome unit :=
  match inputs with
  | [] => (st, [Input chat_prompt], [], Blocked)
  | ev :: rest =>
      let '(st', out, r) := chat_iteration st ev in
      match r with
      | Return Continue =>
          let '(st'', out', rest', r') := chat_loop st' rest in
          (st'', out ++ out', rest', r')
      | Return Break => (st', out, rest, Return tt)
      | Raise e => (st', out, rest, Raise e)
      | Exit code => (st', out, rest, Exit code)
      | Blocked => (st', out, rest, Blocked)
      end
  end.

Definition banner : list event :=
  [Print (Py.nl ++ rule); Print "Interactive LLM Chat"; Print rule;
   Print "Commands:";
   Print "  /quit or /exit - Exit the chat";
   Print "  /clear - Clear conversation context";
   Print "  /system <prompt> - Change system prompt";
   Print (rule ++ Py.nl)].

Definition initial_chat (h : llm R) (system_prompt : string) : chat_state :=
  mk_chat [system_turn system_prompt] system_prompt h.

Definition interactive_chat (h : llm R) (system_prompt : string)
                            (inputs : list input_event)
  : chat_state * list event * list input_event * outcome unit :=
  let '(st, out, rest, r) := chat_loop (initial_chat h system_prompt) inputs in
  (st, banner ++ out, rest, r).

(** The [finally] block of [main]. *)
Definition teardown (l : option (llm R)) (v : option (vdevice R))
  : list event :=
  (match l with
   | Some h =>
       match clear_context R h with
       | (Returns _, h') =>
           Call LLM_clear_context :: Call LLM_release ::
           match llm_release R h' with
           | Returns _ => []
           | Raises msg => [LogWarning ("Error releasing LLM: " ++ msg)]
           end
       | (Raises msg, _) =>
           [Call LLM_clear_context;
            LogWarning ("Error releasing LLM: " ++ msg)]
       end
   | None => []
   end)
  ++
  (match v with
   | Some d =>
       Call VDevice_release ::
       match vdevice_release R d with
       | Returns _ => []
       | Raises msg => [LogWarning ("Error releasing VDevice: " ++ msg)]
       end
   | None => []
   end).

(** The [try] block of [main]: the handles as they stand when the block
    is left, what was done, and how the block ended. *)
Definition bootstrap_and_chat (hef : Path) (args : Args)
                              (inputs : list input_event)
  : option (llm R) * option (vdevice R) * list event * outcome unit :=
  let out1 :=
    [Print (Py.nl ++ "[1/2] Initializing Hailo device...");
     Call VDevice_create_params] in
  match create_params R with
  | Raises msg => (None, None, out1, Raise (Exception msg))
  | Returns _ =>
      let out2 := out1 ++ [Call (VDevice_init (SHARED_VDEVICE_GROUP_ID D))] in
      match VDevice R (SHARED_VDEVICE_GROUP_ID D) with
      | Raises msg => (None, None, out2, Raise (Exception msg))
      | Returns v =>
          let out3 :=
            out2 ++ [Print "Hailo device initialized";
                     Print "[2/2] Loading LLM model...";
                     Call (LLM_init (Path_str hef))] in
          match LLM R v (Path_str hef) with
          | Raises msg => (None, Some v, out3, Raise (Exception msg))
          | Returns h =>
              let '(st, out, _, r) :=
                interactive_chat h (system_prompt args) inputs in
              (Some (handle st), Some v,
               out3 ++ [Print "Model loaded successfully"] ++ out, r)
          end
      end
  end.

(** "Find or select model", the part of [main] before the [try]. *)
Definition hef_path_given (args : Args) : bool :=
  match hef_path args with
  | Some p => negb (p =? "")
  | None => false
  end.

(** The branch without [--hef-path]: discovery, then the menu when there
    is more than one model. *)
Definition discover (inputs : list input_event)
  : list event * list input_event * outcome Path :=
  let models := get_downloaded_llm_models D (models_dir_state fs) in
  match models with
  | [] =>
      ([Print (Py.nl ++ "No LLM models found in the resources directory.");
        Print ("Expected location: " ++ RESOURCES_ROOT_PATH_DEFAULT D
               ++ "/models/" ++ HAILO10H_ARCH D ++ "/");
        Print (Py.nl ++ "To download models, run:");
        Print "  hailo-download-resources --arch hailo10h"],
       inputs, Exit 1%Z)
  | [only] =>
      ([Print (Py.nl ++ "Using only available model: " ++ stem only)],
       inputs, Return only)
  | _ => select_model models inputs
  end.

(** The branch with [--hef-path]: the path as given, else with the
    extension appended. *)
Definition resolve (given : string) (inputs : list input_event)
  : list event * list input_event * outcome Path :=
  let candidate :=
    if path_exists fs given then given
    else (given ++ HAILO_FILE_EXTENSION)%string in
  if negb (path_exists fs candidate) then
    ([LogError ("Model file not found: " ++ given)], inputs, Exit 1%Z)
  else ([], inputs, Return (Path_of candidate)).

Definition find_or_select (args : Args) (inputs : list input_event)
  : list event * list input_event * outcome Path :=
  match hef_path args with
  | Some given =>
      if negb (given =? "") then resolve given inputs else discover inputs
  | None => discover inputs
  end.

(** The [except Exception] and [finally] clauses of [main], for a [try]
    block that ended with [r] and left the handles [l] and [v].  While
    the program waits for input nothing is torn down. *)
Definition except_finally (l : option (llm R)) (v : option (vdevice R))
                          (r : outcome unit)
  : list event * outcome unit :=
  match r with
  | Blocked => ([], Blocked)
  | Raise e =>
      if is_Exception e then
        ([LogError ("Error occurred: " ++ exn_str e)] ++ teardown l v,
         Exit 1%Z)
      else (teardown l v, Raise e)
  | r => (teardown l v, r)
  end.

Definition main (args : Args) (inputs : list input_event)
  : list event * outcome unit :=
  let '(out0, inputs', sel) := find_or_select args inputs in
  match sel with
  | Return hef =>
      let out1 := out0 ++ [Print (Py.nl ++ "Selected model: " ++ stem hef)] in
      let '(l, v, out2, r) := bootstrap_and_chat hef args inputs' in
      let '(out3, r') := except_finally l v r in
      (out1 ++ out2 ++ out3, r')
  | Raise e => (out0, Raise e)
  | Exit code => (out0, Exit code)
  | Blocked => (out0, Blocked)
  end.
End Program.

(** The status the process ends with: 0 when [main] returns, the argument
    of [sys.exit], 1 for an uncaught [Exception] (traceback), 130 for an
    uncaught [KeyboardInterrupt]; none while the program waits for input. *)
Definition exit_status (r : outcome unit) : option Z :=
  match r with
  | Return _ => Some 0%Z
  | Exit code => Some code
  | Raise e => if is_Exception e then Some 1%Z else Some 130%Z
  | Blocked => None
  end.

(** ** Vocabulary of the properties *)

Definition is_system (t : turn) : bool :=
  match turn_role t with
  | system => true
  | _ => false
  end.

(** Exactly one system turn, and it is the first element. *)
Definition one_system_first (c : transcript) : bool :=
  match c with
  | [] => false
  | t :: rest => is_system t && forallb (fun t' => negb (is_system t')) rest
  end.

(** A stripped line that is neither blank nor one of the commands: the
    conditions of the [if] chain of the loop, all false. *)
Definition is_utterance (user_input : string) : bool :=
  negb (user_input =? "")
  && negb (existsb (String.eqb (Py.lower user_input)) ["/quit"; "/exit"])
  && negb (Py.lower user_input =? "/clear")
  && negb (Py.startswith (Py.lower user_input) "/system ").

(** The quit token of the selection menu. *)
Definition is_quit_token (choice : string) : bool := Py.lower choice =? "q".

(** A menu answer that is neither the quit token nor a number in range. *)
Definition is_invalid_choice (n_models : nat) (choice : string) : bool :=
  negb (is_quit_token choice)
  && match Py.int choice with
     | Some i => negb ((1 <=? i) && (i <=? Z.of_nat n_models))%Z
     | None => true
     end.

(** The first piece of [s.split(sep)]. *)
Definition first_piece (sep s : string) : string := hd "" (Py.split s sep).

(** The message that answers an invalid menu choice. *)
Definition retry_message (n_models : nat) (choice : string) : string :=
  match Py.int choice with
  | Some _ => "Please enter a number between 1 and " ++ Py.str_of_nat n_models
  | None => "Please enter a valid number"
  end.

Definition calls_of (out : list event) : list call :=
  flat_map (fun e => match e with Call c => [c] | _ => [] end) out.

Definition warnings_of (out : list event) : list string :=
  flat_map (fun e => match e with LogWarning w => [w] | _ => [] end) out.

Definition prompts_of (out : list event) : list string :=
  flat_map (fun e => match e with Input p => [p] | _ => [] end) out.

(** Acquiring the two handles for [hef] raises: in [create_params], in
    [VDevice] or in [LLM]. *)
Definition acquisition_raises (D : Defines) (R : Runtime) (hef : Path) : bool :=
  match create_params R with
  | Raises _ => true
  | Returns _ =>
      match VDevice R (SHARED_VDEVICE_GROUP_ID D) with
      | Raises _ => true
      | Returns v =>
          match LLM R v (Path_str hef) with
          | Raises _ => true
          | Returns _ => false
          end
      end
  end.

(** The cases of a failing start.  No model file is found and no path was
    given; the given path does not exist, with or without the extension;
    a model was chosen and acquiring the handles raises; the read of the
    selection menu meets the end of the input. *)
Definition no_models_found (D : Defines) (fs : FileSystem) (args : Args)
  : bool :=
  negb (hef_path_given args)
  && match get_downloaded_llm_models D (models_dir_state fs) with
     | [] => true
     | _ => false
     end.

Definition path_unresolved (fs : FileSystem) (args : Args) : bool :=
  match hef_path args with
  | Some given =>
      negb (given =? "") && negb (path_exists fs given)
      && negb (path_exists fs (given ++ HAILO_FILE_EXTENSION))
  | None => false
  end.



(** The calls of a teardown in which nothing is skipped. *)
Definition full_teardown : list call :=
  [LLM_clear_context; LLM_release; VDevice_release].

Definition all_space (s : string) : bool :=
  forallb Py.isspace (list_ascii_of_string s).

(** The last character, if any, is not white space. *)
Fixpoint ends_nonspace (s : string) : bool :=
  match s with
  | EmptyString => true
  | String c EmptyString => negb (Py.isspace c)
  | String _ r => ends_nonspace r
  end.

(** ** Test doubles of the vendor runtime and of the environment *)

Module Stub.

Definition defines : Defines := {|
  SHARED_VDEVICE_GROUP_ID := "SHARED";
  HAILO10H_ARCH := "hailo10h";
  RESOURCES_ROOT_PATH_DEFAULT := "/usr/local/hailo/resources";
  RESOURCES_MODELS_DIR_NAME := "models"
|}.

(** Canned answers of the runtime's operations. *)
Record canned := {
  on_create_params : result unit;
  on_VDevice : result unit;
  on_LLM : result unit;
  on_generate_all : result string;
  on_clear_context : result unit;
  on_llm_release : result unit;
  on_vdevice_release : result unit
}.

Definition healthy : canned := {|
  on_create_params := Returns tt;
  on_VDevice := Returns tt;
  on_LLM := Returns tt;
  on_generate_all := Returns "hi there";
  on_clear_context := Returns tt;
  on_llm_release := Returns tt;
  on_vdevice_release := Returns tt
|}.

(** The state of a model handle is its context: the prompts received
    since the last successful reset. *)
Definition runtime (c : canned) : Runtime := {|
  vdevice := unit;
  llm := list transcript;
  create_params := on_create_params c;
  VDevice := fun _ => on_VDevice c;
  LLM := fun _ _ =>
    match on_LLM c with
    | Returns _ => Returns []
    | Raises msg => Raises msg
    end;
  generate_all := fun ctx prompt _ _ => (on_generate_all c, ctx ++ [prompt]);
  clear_context := fun ctx =>
    match on_clear_context c with
    | Returns _ => (Returns tt, [])
    | Raises msg => (Raises msg, ctx)
    end;
  llm_release := fun _ => on_llm_release c;
  vdevice_release := fun _ => on_vdevice_release c
|}.

Definition answering (reply : string) : canned := {|
  on_create_params := Returns tt;
  on_VDevice := Returns tt;
  on_LLM := Returns tt;
  on_generate_all := Returns reply;
  on_clear_context := Returns tt;
  on_llm_release := Returns tt;
  on_vdevice_release := Returns tt
|}.

Definition generation_fails : canned := {|
  on_create_params := Returns tt;
  on_VDevice := Returns tt;
  on_LLM := Returns tt;
  on_generate_all := Raises "device timeout";
  on_clear_context := Returns tt;
  on_llm_release := Returns tt;
  on_vdevice_release := Returns tt
|}.

Definition reset_fails : canned := {|
  on_create_params := Returns tt;
  on_VDevice := Returns tt;
  on_LLM := Returns tt;
  on_generate_all := Returns "hi there";
  on_clear_context := Raises "context busy";
  on_llm_release := Returns tt;
  on_vdevice_release := Returns tt
|}.

Definition model_release_fails : canned := {|
  on_create_params := Returns tt;
  on_VDevice := Returns tt;
  on_LLM := Returns tt;
  on_generate_all := Returns "hi there";
  on_clear_context := Returns tt;
  on_llm_release := Raises "release failed";
  on_vdevice_release := Returns tt
|}.

Definition no_device : canned := {|
  on_create_params := Returns tt;
  on_VDevice := Raises "no device found";
  on_LLM := Returns tt;
  on_generate_all := Returns "hi there";
  on_clear_context := Returns tt;
  on_llm_release := Returns tt;
  on_vdevice_release := Returns tt
|}.

Definition qwen : string := "Qwen2.5-1.5B-Instruct.hef".
Definition llama : string := "llama3.2-1b.hef".

(** Nothing exists at any explicit path; the models directory holds
    [entries]. *)
Definition fs_with (entries : list string) : FileSystem := {|
  path_exists := fun _ => false;
  models_dir_state := Directory entries
|}.

Definition no_args : Args := {|
  hef_path := None;
  system_prompt := default_system_prompt
|}.

Definition two_models : list Path :=
  [joinpath (models_dir defines) llama; joinpath (models_dir defines) qwen].

End Stub.

(** ** Vocabulary of the further properties *)

(** The lines that leave the chat loop, once stripped. *)
Definition is_quit_command (user_input : string) : bool :=
  existsb (String.eqb (Py.lower user_input)) ["/quit"; "/exit"].

(** The inputs that end the chat loop: a quit command, or Ctrl-C. *)
Definition ends_loop (ev : input_event) : bool :=
  match ev with
  | Line raw => is_quit_command (Py.strip raw)
  | Interrupt => true
  | EOF => false
  end.

(** The inputs that change nothing: a blank line, or the end of input. *)
Definition inert (ev : input_event) : bool :=
  match ev with
  | Line raw => all_space raw
  | EOF => true
  | Interrupt => false
  end.

Definition errors_of (out : list event) : list string :=
  flat_map (fun e => match e with LogError w => [w] | _ => [] end) out.

(** The calls the chat loop makes. *)
Definition is_chat_call (c : call) : bool :=
  match c with
  | LLM_generate_all _ _ _ | LLM_clear_context => true
  | _ => false
  end.

Definition is_generate_call (c : call) : bool :=
  match c with
  | LLM_generate_all _ _ _ => true
  | _ => false
  end.

(** No system turn, and every assistant turn comes directly after a user
    turn.  [after_user] tells whether the turn before is a user turn. *)
Fixpoint answered (after_user : bool) (c : transcript) : bool :=
  match c with
  | [] => true
  | t :: rest =>
      match turn_role t with
      | user => answered true rest
      | assistant => after_user && answered false rest
      | system => false
      end
  end.

(** User and assistant turns in strict alternation, starting with a user
    turn and ending with an assistant turn.  [open] tells whether a user
    turn waits for its answer. *)
Fixpoint paired (open : bool) (c : transcript) : bool :=
  match c with
  | [] => negb open
  | t :: rest =>
      match turn_role t with
      | user => negb open && paired true rest
      | assistant => open && paired false rest
      | system => false
      end
  end.

(** A runtime whose context reset, respectively generation, never raises. *)
Definition reset_never_raises (R : Runtime) : Prop :=
  forall h, exists h', clear_context R h = (Returns tt, h').

Definition generation_never_raises (R : Runtime) : Prop :=
  forall h c t m, exists response h',
    generate_all R h c t m = (Returns response, h').

(** The lower-cased stem of a directory entry. *)
Definition entry_key (n : string) : string := Py.lower (name_stem n).

(** A runtime that fails to load the model. *)
Definition stub_no_model : Stub.canned := {|
  Stub.on_create_params := Returns tt;
  Stub.on_VDevice := Returns tt;
  Stub.on_LLM := Raises "model not compatible";
  Stub.on_generate_all := Returns "hi there";
  Stub.on_clear_context := Returns tt;
  Stub.on_llm_release := Returns tt;
  Stub.on_vdevice_release := Returns tt
|}.

(** An explicit path that exists only with the extension appended. *)
Definition stub_fs_hef_only (file : string) : FileSystem := {|
  path_exists := fun p => p =? file;
  models_dir_state := Missing
|}.

(** What a line makes the loop call: the generation for an utterance, the
    context reset for [/clear] and [/system], nothing otherwise. *)
Definition is_reset_command (user_input : string) : bool :=
  (Py.lower user_input =? "/clear")
  || Py.startswith (Py.lower user_input) "/system ".

(** A runtime whose context reset fails once when the handle is busy:
    the state of a handle tells whether it is busy. *)
Definition stub_busy_once : Runtime := {|
  vdevice := unit;
  llm := bool;
  create_params := Returns tt;
  VDevice := fun _ => Returns tt;
  LLM := fun _ _ => Returns true;
  generate_all := fun busy _ _ _ => (Returns "hi there", busy);
  clear_context := fun busy =>
    if busy then (Raises "context busy", false) else (Returns tt, false);
  llm_release := fun _ => Returns tt;
  vdevice_release := fun _ => Returns tt
|}.

(** The shape of the transcript in a state of the loop: one system turn,
    then user and assistant turns in which every assistant turn answers the
    user turn before it.  If the context reset never raises, the system turn
    carries the active prompt; if the generation never raises, every user
    turn has its answer. *)
Definition well_shaped (R : Runtime) (st : chat_state R) : Prop :=
  exists p0 tail,
    conversation R st = system_turn p0 :: tail
    /\ answered false tail = true
    /\ (reset_never_raises R -> p0 = active_prompt R st)
    /\ (generation_never_raises R -> paired false tail = true).



(** A condition under which [pathlib] leaves a path string as it is and
    gives it a final component: the string is not empty, and between its
    separators (after one leading separator, if any) every component is
    non-empty and is not the single dot.  So no doubled or trailing
    separator and no "." component; ".." is allowed, as pathlib keeps it.
    The scan remembers what the current component is so far. *)
Inductive component := AtStart | OnlyDot | Named.

Fixpoint components_ok (seen : component) (s : string) : bool :=
  match s with
  | EmptyString =>
      match seen with Named => true | _ => false end
  | String c r =>
      if (c =? "/")%char then
        match seen with Named => components_ok AtStart r | _ => false end
      else
        match seen with
        | AtStart => components_ok (if (c =? ".")%char then OnlyDot else Named) r
        | _ => components_ok Named r
        end
  end.

Definition pathlib_normal (s : string) : bool :=
  match s with
  | EmptyString => false
  | String c r =>
      if (c =? "/")%char then components_ok AtStart r
      else components_ok AtStart s
  end.

(** * Properties *)

Example strip_ex : Py.strip "  /System  You  " = "/System  You".
Proof. reflexivity. Qed.

Example split_ex : Py.split "a, b, c,d, " ", " = ["a"; "b"; "c,d"; ""].
Proof. reflexivity. Qed.

Example int_ex :
  map Py.int ["12"; " +1_0 "; "-0"; "1__0"; "_1"; "1_"; ""; "q"; "007"]
  = [Some 12; Some 10; Some 0; None; None; None; None; None; Some 7]%Z.
Proof. reflexivity. Qed.

Example sorted_ex :
  Py.sorted Py.lower ["b"; "B"; "a"; "C"] = ["a"; "b"; "B"; "C"].
Proof. reflexivity. Qed.

Example stem_ex :
  map name_stem [Stub.qwen; ".hef"; "a.tar.hef"; "noext"; "dot."]
  = ["Qwen2.5-1.5B-Instruct"; ".hef"; "a.tar"; "noext"; "dot."].
Proof. reflexivity. Qed.

Example locator_ex :
  map name
      (get_downloaded_llm_models Stub.defines
         (Directory ["yolov8n.hef"; Stub.qwen; "notes-chat.txt"; Stub.llama;
                     "Phi-3.HEF"; ".hef"]))
  = [Stub.llama; Stub.qwen].
Proof. reflexivity. Qed.

(** The example scenario of the specification: "hello", "/clear", "/quit"
    against a generation stub answering "hi there". *)
Example scenario_hello_clear_quit :
  let R := Stub.runtime Stub.healthy in
  let sys := system_turn default_system_prompt in
  (let '(st, _, _, _) :=
     interactive_chat R [] default_system_prompt [Line "hello"] in
   conversation R st) = [sys; mk_turn user "hello"; mk_turn assistant "hi there"]
  /\ (let '(st, _, _, r) :=
        interactive_chat R [] default_system_prompt
                         [Line "hello"; Line "/clear"; Line "/quit"] in
      (conversation R st, r)) = ([sys], Return tt).
Proof. split; reflexivity. Qed.

(** ** Facts about the string built-ins *)

Lemma prefix_iff (p s : string) :
  String.prefix p s = true <-> exists t, s = (p ++ t)%string.
Proof.
  revert s; induction p as [|a p IH]; intros s.
  - split; [intros _; exists s; reflexivity | intros _; destruct s; reflexivity].
  - destruct s as [|b s]; simpl.
    + split; [discriminate | intros [t Ht]; discriminate].
    + destruct (ascii_dec a b) as [->|Hab].
      * rewrite IH. split; intros [t Ht]; exists t; [now rewrite Ht | now inversion Ht].
      * split; [discriminate | intros [t Ht]; inversion Ht; congruence].
Qed.

Lemma lower_char_space (c : ascii) : Py.lower_char c = " "%char -> c = " "%char.
Proof.
  destruct c as [[] [] [] [] [] [] [] []]; vm_compute; intros H;
    first [reflexivity | discriminate H].
Qed.

Lemma lower_empty (s : string) : Py.lower s = "" -> s = "".
Proof. destruct s; [reflexivity | discriminate]. Qed.

Lemma length_lower (s : string) : String.length (Py.lower s) = String.length s.
Proof. induction s; simpl; congruence. Qed.

Lemma all_space_cons c s :
  all_space (String c s) = Py.isspace c && all_space s.
Proof. reflexivity. Qed.

Lemma rstrip_ends_nonspace (s : string) : ends_nonspace (Py.rstrip s) = true.
Proof.
  induction s as [|c r IH]; simpl; [reflexivity|].
  destruct (Py.rstrip r) as [|d r'] eqn:E.
  - destruct (Py.isspace c) eqn:Hc; simpl; [reflexivity | now rewrite Hc].
  - exact IH.
Qed.

Lemma strip_ends_nonspace (s : string) : ends_nonspace (Py.strip s) = true.
Proof. apply rstrip_ends_nonspace. Qed.

Lemma rstrip_empty_iff (s : string) : Py.rstrip s = "" <-> all_space s = true.
Proof.
  induction s as [|c r IH]; simpl; [tauto|].
  rewrite all_space_cons, andb_true_iff, <- IH.
  destruct (Py.rstrip r); destruct (Py.isspace c); split;
    intros H; try discriminate; try tauto; destruct H; discriminate.
Qed.

Lemma lstrip_all_space (s : string) : all_space s = true -> Py.lstrip s = "".
Proof.
  induction s as [|c r IH]; simpl; [reflexivity|].
  rewrite all_space_cons, andb_true_iff. intros [-> H]. auto.
Qed.

Lemma all_space_lstrip (s : string) :
  all_space (Py.lstrip s) = all_space s.
Proof.
  induction s as [|c r IH]; simpl; [reflexivity|].
  destruct (Py.isspace c) eqn:Hc.
  - now rewrite all_space_cons, Hc, IH.
  - reflexivity.
Qed.

Lemma strip_empty_iff (s : string) : Py.strip s = "" <-> all_space s = true.
Proof. unfold Py.strip. now rewrite rstrip_empty_iff, all_space_lstrip. Qed.

Lemma ends_nonspace_not_all_space (s : string) :
  s <> "" -> ends_nonspace s = true -> all_space s = false.
Proof.
  induction s as [|c r IH]; [congruence|]. intros _ H.
  rewrite all_space_cons. destruct r as [|d r'].
  - simpl in H. now destruct (Py.isspace c).
  - rewrite IH; [apply andb_false_r | discriminate | exact H].
Qed.

(** [rstrip] of a text followed by white space only. *)
Lemma rstrip_app_space (s t : string) :
  all_space t = true -> Py.rstrip (s ++ t) = Py.rstrip s.
Proof.
  intros Ht. induction s as [|c r IH]; simpl.
  - now apply rstrip_empty_iff.
  - now rewrite IH.
Qed.

(** After [strip], a line that starts with "/system " goes on with text
    that is not blank: the stripped rest of the line is never empty. *)
Lemma system_argument_nonempty (raw : string) :
  Py.startswith (Py.lower (Py.strip raw)) "/system " = true ->
  Py.strip (Py.slice_from 8 (Py.strip raw)) <> "".
Proof.
  unfold Py.startswith. rewrite prefix_iff. intros [t H].
  pose proof (strip_ends_nonspace raw) as E.
  destruct (Py.strip raw) as [|c1 [|c2 [|c3 [|c4 [|c5 [|c6 [|c7 [|c8 rest]]]]]]]];
    cbn [Py.lower append] in H; try discriminate H.
  assert (c8 = " "%char) as -> by (apply lower_char_space; congruence).
  cbn [Py.slice_from]. rewrite strip_empty_iff.
  destruct rest as [|d rest]; [discriminate E|].
  rewrite ends_nonspace_not_all_space; [discriminate | discriminate | exact E].
Qed.

(** A line "/system" followed by white space only is stripped to the bare
    word "/system". *)
Lemma strip_system_blank (text : string) :
  all_space text = true -> Py.strip ("/system " ++ text) = "/system".
Proof.
  intros H. unfold Py.strip.
  change (Py.lstrip ("/system " ++ text)) with ("/system" ++ String " " text)%string.
  rewrite rstrip_app_space; [reflexivity|].
  now rewrite all_space_cons.
Qed.

(** ** The chat loop *)

Section ChatFacts.
Variable R : Runtime.

(** Which branch of the [if] chain a line takes. *)
Lemma try_body_utterance (st : chat_state R) (raw : string) :
  is_utterance (Py.strip raw) = true ->
  try_body R st (Line raw) = on_utterance R st (Py.strip raw).
Proof.
  unfold is_utterance, try_body. cbv zeta.
  rewrite !andb_true_iff, !negb_true_iff.
  intros [[[-> ->] ->] ->]. reflexivity.
Qed.

Lemma try_body_clear (st : chat_state R) (raw : string) :
  Py.lower (Py.strip raw) = "/clear" ->
  try_body R st (Line raw) = on_clear R st.
Proof.
  intros H. unfold try_body. cbv zeta.
  destruct (Py.strip raw =? "") eqn:E.
  - apply String.eqb_eq in E. rewrite E in H. discriminate H.
  - rewrite H. reflexivity.
Qed.

Lemma try_body_system (st : chat_state R) (raw : string) :
  Py.startswith (Py.lower (Py.strip raw)) "/system " = true ->
  try_body R st (Line raw)
  = on_system R st (Py.strip (Py.slice_from 8 (Py.strip raw))).
Proof.
  intros H. unfold try_body. cbv zeta. rewrite H.
  unfold Py.startswith in H. apply prefix_iff in H. destruct H as [t H].
  destruct (Py.strip raw =? "") eqn:E.
  - apply String.eqb_eq in E. rewrite E in H. discriminate H.
  - rewrite H. reflexivity.
Qed.

Lemma one_system_first_app (c : transcript) (t : turn) :
  one_system_first c = true -> is_system t = false ->
  one_system_first (c ++ [t]) = true.
Proof.
  destruct c as [|s rest]; [discriminate|]. simpl.
  rewrite !andb_true_iff, forallb_app. intros [-> ->] Ht.
  simpl. now rewrite Ht.
Qed.

(** The invariant survives one iteration, and the prompt of every
    generation call of the iteration satisfies it. *)
Lemma chat_iteration_invariant (st : chat_state R) (ev : input_event) :
  one_system_first (conversation R st) = true ->
  let '(st', out, _) := chat_iteration R st ev in
  one_system_first (conversation R st') = true
  /\ forall p t m, In (LLM_generate_all p t m) (calls_of out) ->
                   one_system_first p = true.
Proof.
  intros Inv.
  assert (Husr : forall u, one_system_first
                   (conversation R st ++ [mk_turn user u]) = true)
    by (intros u; now apply one_system_first_app).
  unfold chat_iteration, try_body. destruct ev as [raw| |]; cbv zeta.
  2,3: (simpl; split; [exact Inv | intros p t m []]).
  repeat match goal with
         | |- context [if ?b then _ else _] => destruct b
         end;
    unfold on_clear, on_system, on_utterance;
    repeat match goal with
           | |- context [clear_context R ?h] =>
               destruct (clear_context R h) as [[[]|?] ?]
           | |- context [generate_all R ?h ?c ?t ?m] =>
               destruct (generate_all R h c t m) as [[?|?] ?]
           | |- context [if ?b then _ else _] => destruct b
           end;
    simpl; split; try assumption; try reflexivity; try apply Husr;
    try (intros p t m H; simpl in H; intuition (try discriminate);
         match goal with
         | E : LLM_generate_all _ _ _ = LLM_generate_all _ _ _ |- _ =>
             inversion E; subst; apply Husr
         end).
  apply one_system_first_app; [apply Husr | reflexivity].
Qed.

Lemma chat_loop_invariant (inputs : list input_event) (st : chat_state R) :
  one_system_first (conversation R st) = true ->
  let '(st', out, _, _) := chat_loop R st inputs in
  one_system_first (conversation R st') = true
  /\ forall p t m, In (LLM_generate_all p t m) (calls_of out) ->
                   one_system_first p = true.
Proof.
  revert st. induction inputs as [|ev rest IH]; intros st Inv; simpl.
  - split; [exact Inv | intros p t m []].
  - pose proof (chat_iteration_invariant st ev Inv) as H1.
    destruct (chat_iteration R st ev) as [[st1 out1] r1].
    destruct H1 as [Inv1 Hout1].
    destruct r1 as [[|]|e|code|]; try (split; assumption).
    specialize (IH st1 Inv1).
    destruct (chat_loop R st1 rest) as [[[st2 out2] rest2] r2].
    destruct IH as [Inv2 Hout2]. split; [exact Inv2|].
    intros p t m H. unfold calls_of in H. rewrite flat_map_app in H.
    apply in_app_or in H. destruct H; [eapply Hout1 | eapply Hout2]; eassumption.
Qed.
End ChatFacts.

(** C1.  Whatever the inputs of the chat loop and whatever the runtime
    does, the transcript of [interactive_chat] holds exactly one system
    turn, in first position: in the state the loop is in after the inputs,
    and in every prompt handed to the generation operation on the way.
    A [/clear], and a [/system] with text, whose context reset returns
    leave the transcript equal to one fresh system turn carrying the active
    prompt (the unchanged one for [/clear], the stripped text for
    [/system], which is never empty); nothing is appended. *)
Theorem transcript_one_system_turn_first
  (R : Runtime) (h : llm R) (system_prompt : string)
  (inputs : list input_event) :
  (let '(st, out, _, _) := interactive_chat R h system_prompt inputs in
   one_system_first (conversation R st) = true
   /\ forall p t m, In (LLM_generate_all p t m) (calls_of out) ->
                    one_system_first p = true)
  /\ forall (st : chat_state R) (raw : string) (h' : llm R),
       clear_context R (handle R st) = (Returns tt, h') ->
       (Py.lower (Py.strip raw) = "/clear" ->
        let '(st', _, _) := chat_iteration R st (Line raw) in
        conversation R st' = [system_turn (active_prompt R st)]
        /\ active_prompt R st' = active_prompt R st)
       /\ (Py.startswith (Py.lower (Py.strip raw)) "/system " = true ->
           let new_system := Py.strip (Py.slice_from 8 (Py.strip raw)) in
           let '(st', _, _) := chat_iteration R st (Line raw) in
           conversation R st' = [system_turn new_system]
           /\ active_prompt R st' = new_system
           /\ new_system <> "").
Proof.
  split.
  - unfold interactive_chat.
    pose proof (chat_loop_invariant R inputs (initial_chat R h system_prompt)
                  eq_refl) as H.
    destruct (chat_loop R (initial_chat R h system_prompt) inputs)
      as [[[st out] rest] r].
    destruct H as [Inv Hout]. split; [exact Inv|].
    intros p t m Hin. unfold calls_of in Hin. rewrite flat_map_app in Hin.
    apply in_app_or in Hin. destruct Hin as [[]|Hin]. eapply Hout, Hin.
  - intros st raw h' Hreset. split.
    + intros Hclear. unfold chat_iteration.
      rewrite (try_body_clear R st raw Hclear). unfold on_clear.
      rewrite Hreset. simpl. split; reflexivity.
    + intros Hsys. cbv zeta. unfold chat_iteration.
      rewrite (try_body_system R st raw Hsys). unfold on_system.
      pose proof (system_argument_nonempty raw Hsys) as Hne.
      destruct (Py.strip (Py.slice_from 8 (Py.strip raw)) =? "") eqn:E.
      * apply String.eqb_eq in E. contradiction.
      * rewrite Hreset. simpl. repeat split. exact Hne.
Qed.

Lemma transcript_one_system_turn_first_witness :
  let R := Stub.runtime Stub.healthy in
  let st := mk_chat R [system_turn "Be brief."; mk_turn user "hello";
                       mk_turn assistant "hi there"] "Be brief." [] in
  (let '(st', _, _) := chat_iteration R st (Line " /CLEAR ") in
   conversation R st' = [system_turn "Be brief."]
   /\ active_prompt R st' = "Be brief.")
  /\ (let '(st', _, _) := chat_iteration R st (Line "/system  Speak French. ") in
      conversation R st' = [system_turn "Speak French."]
      /\ active_prompt R st' = "Speak French."
      /\ "Speak French." <> "").
Proof.
  intros R st.
  pose proof (proj2 (transcript_one_system_turn_first R [] "Be brief." []))
    as H.
  split.
  - exact (proj1 (H st " /CLEAR " [] eq_refl) eq_refl).
  - exact (proj2 (H st "/system  Speak French. " [] eq_refl) eq_refl).
Defined.

(** C3.  When the line is a user utterance and the generation call raises,
    the iteration ends in the [except Exception] clause: the error is
    logged and printed, the loop goes on with the rest of the input, and
    the transcript keeps the user turn just appended, with no assistant
    turn after it. *)
Theorem generation_exception_keeps_user_turn
  (R : Runtime) (st : chat_state R) (raw msg : string) (h : llm R)
  (rest : list input_event) :
  is_utterance (Py.strip raw) = true ->
  generate_all R (handle R st)
               (conversation R st ++ [mk_turn user (Py.strip raw)])
               temperature max_generated_tokens = (Raises msg, h) ->
  let conversation1 := conversation R st ++ [mk_turn user (Py.strip raw)] in
  let st1 := mk_chat R conversation1 (active_prompt R st) h in
  let out1 :=
    [Input chat_prompt; PrintNoEnd (Py.nl ++ "Assistant: ");
     Call (LLM_generate_all conversation1 temperature max_generated_tokens);
     LogError ("Error generating response: " ++ msg);
     Print (Py.nl ++ "Error: " ++ msg ++ Py.nl)] in
  chat_iteration R st (Line raw) = (st1, out1, Return Continue)
  /\ last (conversation R st1) (system_turn "")
     = mk_turn user (Py.strip raw)
  /\ chat_loop R st (Line raw :: rest)
     = (let '(st2, out2, rest2, r2) := chat_loop R st1 rest in
        (st2, out1 ++ out2, rest2, r2)).
Proof.
  intros Hutt Hgen conversation1 st1 out1.
  assert (Hit : chat_iteration R st (Line raw) = (st1, out1, Return Continue)).
  { unfold chat_iteration. rewrite (try_body_utterance R st raw Hutt).
    unfold on_utterance. rewrite Hgen. reflexivity. }
  split; [exact Hit|]. split.
  - apply last_last.
  - cbn [chat_loop]. rewrite Hit. reflexivity.
Qed.

Lemma generation_exception_keeps_user_turn_witness :
  let R := Stub.runtime Stub.generation_fails in
  let sys := system_turn default_system_prompt in
  chat_loop R (initial_chat R [] default_system_prompt)
            [Line "hello"; Line "/quit"]
  = (mk_chat R [sys; mk_turn user "hello"] default_system_prompt
             [[sys; mk_turn user "hello"]],
     [Input chat_prompt; PrintNoEnd (Py.nl ++ "Assistant: ");
      Call (LLM_generate_all [sys; mk_turn user "hello"] temperature
                             max_generated_tokens);
      LogError "Error generating response: device timeout";
      Print (Py.nl ++ "Error: device timeout" ++ Py.nl);
      Input chat_prompt; Print (Py.nl ++ "Goodbye!")],
     [], Return tt).
Proof.
  intros R sys.
  exact (proj2 (proj2 (generation_exception_keeps_user_turn
                         R (initial_chat R [] default_system_prompt)
                         "hello" "device timeout"
                         [[sys; mk_turn user "hello"]] [Line "/quit"]
                         eq_refl eq_refl))).
Defined.

(** C7 (the code departs from it).  The line "/system" followed by blanks
    only, given to the loop in its initial state with a runtime that
    answers "hi there": no usage hint is printed; the stripped line
    "/system" is appended as a user turn, sent to the generation operation,
    which changes the context of the model handle, and answered. *)
Theorem blank_system_command_is_generated :
  let R := Stub.runtime Stub.healthy in
  let sys := system_turn default_system_prompt in
  chat_iteration R (initial_chat R [] default_system_prompt)
                 (Line "/system   ")
  = (mk_chat R [sys; mk_turn user "/system"; mk_turn assistant "hi there"]
             default_system_prompt [[sys; mk_turn user "/system"]],
     [Input chat_prompt; PrintNoEnd (Py.nl ++ "Assistant: ");
      Call (LLM_generate_all [sys; mk_turn user "/system"] temperature
                             max_generated_tokens);
      Print "hi there"; Print ""],
     Return Continue).
Proof. reflexivity. Qed.

(** Every line "/system <text>" with blank <text> goes the same way, and
    the usage hint of [on_system] is never reached from the loop. *)
Lemma blank_system_command_is_utterance
  (R : Runtime) (st : chat_state R) (text : string) :
  all_space text = true ->
  try_body R st (Line ("/system " ++ text)) = on_utterance R st "/system".
Proof.
  intros H. rewrite try_body_utterance; rewrite (strip_system_blank text H);
    reflexivity.
Qed.

Lemma usage_hint_unreachable (raw : string) :
  Py.startswith (Py.lower (Py.strip raw)) "/system " = true ->
  negb (Py.strip (Py.slice_from 8 (Py.strip raw)) =? "") = true.
Proof.
  intros H. apply negb_true_iff, String.eqb_neq.
  now apply system_argument_nonempty.
Qed.

(** C10.  A line that is stripped to exactly "/system" is handled as an
    ordinary utterance: the iteration is that of [on_utterance], a user
    turn "/system" is appended to the transcript, and the one call into
    the runtime is the generation call on the extended transcript; the
    active system prompt stays. *)
Theorem bare_system_is_utterance
  (R : Runtime) (st : chat_state R) (raw : string) :
  Py.strip raw = "/system" ->
  try_body R st (Line raw) = on_utterance R st "/system"
  /\ let '(st', out, r) := chat_iteration R st (Line raw) in
     let conversation1 := conversation R st ++ [mk_turn user "/system"] in
     (exists answer, conversation R st' = conversation1 ++ answer)
     /\ active_prompt R st' = active_prompt R st
     /\ calls_of out
        = [LLM_generate_all conversation1 temperature max_generated_tokens]
     /\ prompts_of out = [chat_prompt]
     /\ r = Return Continue.
Proof.
  intros H.
  assert (E : try_body R st (Line raw) = on_utterance R st "/system")
    by (rewrite try_body_utterance; rewrite H; reflexivity).
  split; [exact E|].
  unfold chat_iteration. rewrite E. unfold on_utterance.
  destruct (generate_all R (handle R st)
              (conversation R st ++ [mk_turn user "/system"])
              temperature max_generated_tokens) as [[response|msg] h]; simpl.
  - repeat split. eexists. reflexivity.
  - repeat split. exists []. now rewrite app_nil_r.
Qed.

Lemma bare_system_is_utterance_witness :
  let R := Stub.runtime Stub.healthy in
  let st := initial_chat R [] default_system_prompt in
  try_body R st (Line "  /system") = on_utterance R st "/system"
  /\ let '(st', out, r) := chat_iteration R st (Line "  /system") in
     let conversation1 := conversation R st ++ [mk_turn user "/system"] in
     (exists answer, conversation R st' = conversation1 ++ answer)
     /\ active_prompt R st' = active_prompt R st
     /\ calls_of out
        = [LLM_generate_all conversation1 temperature max_generated_tokens]
     /\ prompts_of out = [chat_prompt]
     /\ r = Return Continue.
Proof.
  intros R st. exact (bare_system_is_utterance R st "  /system" eq_refl).
Defined.

(** ** The response clean-up *)

Section SplitFacts.
Variable sep : string.
Hypothesis sep_nonempty : sep <> "".

Lemma first_piece_cons (c : ascii) (r : string) :
  first_piece sep (String c r)
  = if String.prefix sep (String c r) then ""
    else String c (first_piece sep r).
Proof.
  unfold first_piece, Py.split. cbn [Py.split_from].
  destruct (String.prefix sep (String c r)); [reflexivity|].
  destruct (Py.split_from sep 0 r); reflexivity.
Qed.

Lemma first_piece_whole (s : string) :
  (forall a b, s <> (a ++ sep ++ b)%string) -> first_piece sep s = s.
Proof.
  induction s as [|c r IH]; intros Hno; [reflexivity|].
  rewrite first_piece_cons.
  destruct (String.prefix sep (String c r)) eqn:E.
  - apply prefix_iff in E. destruct E as [t E].
    exfalso. apply (Hno "" t). exact E.
  - rewrite IH; [reflexivity|].
    intros a b Hr. apply (Hno (String c a) b). now rewrite Hr.
Qed.

Lemma first_piece_before (a b : string) :
  (forall a' b', (a ++ sep ++ b = a' ++ sep ++ b')%string ->
                 String.length a <= String.length a') ->
  first_piece sep (a ++ sep ++ b) = a.
Proof.
  induction a as [|c a IH]; intros Hmin.
  - cbn [append].
    destruct (sep ++ b)%string as [|m r] eqn:E.
    + destruct sep; [congruence | discriminate E].
    + rewrite first_piece_cons.
      replace (String.prefix sep (String m r)) with true; [reflexivity|].
      symmetry. apply prefix_iff. exists b. now rewrite E.
  - cbn [append]. rewrite first_piece_cons.
    destruct (String.prefix sep (String c (a ++ sep ++ b))) eqn:E.
    + apply prefix_iff in E. destruct E as [t E].
      specialize (Hmin "" t E). simpl in Hmin. lia.
    + rewrite IH; [reflexivity|].
      intros a' b' Hr. specialize (Hmin (String c a') b').
      cbn [append String.length] in Hmin. rewrite Hr in Hmin.
      specialize (Hmin eq_refl). lia.
Qed.
End SplitFacts.

(** C8.  [clean] keeps the text before the first occurrence of the marker
    and the whole text when the marker does not occur; for an utterance
    whose generation call returns, the cleaned text is what is printed and
    what the assistant turn appended to the transcript holds. *)
Theorem response_truncated_at_first_marker
  (R : Runtime) (st : chat_state R) (raw response : string) (h : llm R) :
  ((forall a b, response <> (a ++ metadata_marker ++ b)%string) ->
   clean response = response)
  /\ (forall a b,
        response = (a ++ metadata_marker ++ b)%string ->
        (forall a' b', response = (a' ++ metadata_marker ++ b')%string ->
                       String.length a <= String.length a') ->
        clean response = a)
  /\ (is_utterance (Py.strip raw) = true ->
      generate_all R (handle R st)
                   (conversation R st ++ [mk_turn user (Py.strip raw)])
                   temperature max_generated_tokens = (Returns response, h) ->
      let '(st', out, r) := chat_iteration R st (Line raw) in
      conversation R st'
      = conversation R st
        ++ [mk_turn user (Py.strip raw); mk_turn assistant (clean response)]
      /\ (exists before, out = before ++ [Print (clean response); Print ""])
      /\ r = Return Continue).
Proof.
  assert (Hne : metadata_marker <> "") by discriminate.
  split; [|split].
  - intros Hno. now apply (first_piece_whole metadata_marker).
  - intros a b -> Hmin. now apply (first_piece_before metadata_marker).
  - intros Hutt Hgen. unfold chat_iteration.
    rewrite (try_body_utterance R st raw Hutt). unfold on_utterance.
    rewrite Hgen. split; [|split].
    + cbn [conversation]. now rewrite <- app_assoc.
    + eexists. reflexivity.
    + reflexivity.
Qed.

Lemma response_truncated_at_first_marker_witness :
  let reply := "It is sunny. [{'type': 'text'}]. [{'type'" in
  let R := Stub.runtime (Stub.answering reply) in
  let st := initial_chat R [] default_system_prompt in
  clean reply = "It is sunny"
  /\ clean "hi there" = "hi there"
  /\ let '(st', out, r) := chat_iteration R st (Line "Weather?") in
     conversation R st'
     = conversation R st
       ++ [mk_turn user "Weather?"; mk_turn assistant (clean reply)]
     /\ (exists before, out = before ++ [Print (clean reply); Print ""])
     /\ r = Return Continue.
Proof.
  intros reply R st.
  pose proof (response_truncated_at_first_marker R st "Weather?" reply
                [conversation R st ++ [mk_turn user "Weather?"]]) as H.
  destruct H as [_ [_ H3]].
  split; [reflexivity|]. split; [reflexivity|].
  exact (H3 eq_refl eq_refl).
Defined.

(** ** The Model Locator *)

Lemma length_append (a b : string) :
  String.length (a ++ b) = String.length a + String.length b.
Proof. induction a; simpl; congruence. Qed.

Lemma slice_from_append (a b : string) :
  Py.slice_from (String.length a) (a ++ b) = b.
Proof. induction a; simpl; [now destruct b | assumption]. Qed.

Lemma slice_to_append (a b : string) :
  Py.slice_to (String.length a) (a ++ b) = a.
Proof. induction a; simpl; [now destruct b | congruence]. Qed.

Lemma slice_to_from (k : nat) (s : string) :
  (Py.slice_to k s ++ Py.slice_from k s)%string = s.
Proof.
  revert s; induction k as [|k IH]; intros [|c r]; simpl; try reflexivity.
  now rewrite IH.
Qed.

Lemma length_slice_from (k : nat) (s : string) :
  String.length (Py.slice_from k s) = String.length s - k.
Proof. revert s; induction k as [|k IH]; intros [|c r]; simpl; auto. Qed.

Lemma endswith_iff (s p : string) :
  Py.endswith s p = true <-> exists a, s = (a ++ p)%string.
Proof.
  unfold Py.endswith. rewrite andb_true_iff, Nat.leb_le, String.eqb_eq. split.
  - intros [_ H].
    exists (Py.slice_to (String.length s - String.length p) s).
    pose proof (slice_to_from (String.length s - String.length p) s) as E.
    rewrite H in E. now symmetry.
  - intros [a ->]. rewrite length_append. split; [lia|].
    replace (String.length a + String.length p - String.length p)
      with (String.length a) by lia.
    apply slice_from_append.
Qed.

Lemma contains_iff (sub s : string) :
  Py.contains sub s = true <-> exists a b, s = (a ++ sub ++ b)%string.
Proof.
  induction s as [|c r IH]; cbn [Py.contains].
  - rewrite prefix_iff. split.
    + intros [t Ht]. now exists "", t.
    + intros [[|? ?] [b H]]; [now exists b | discriminate H].
  - rewrite orb_true_iff, prefix_iff, IH. split.
    + intros [[t Ht] | [a [b Hr]]].
      * now exists "", t.
      * exists (String c a), b. now rewrite Hr.
    + intros [[|c' a] [b H]].
      * left. now exists b.
      * right. exists a, b. now inversion H.
Qed.

Lemma rfind_dot_hef (base : string) :
  Py.rfind "." (base ++ HAILO_FILE_EXTENSION) = Some (String.length base).
Proof.
  induction base as [|c r IH]; [reflexivity|].
  cbn [append Py.rfind String.length]. now rewrite IH.
Qed.

(** The stem of a name with the model extension is the name without it. *)
Lemma name_stem_hef (base : string) :
  base <> "" -> name_stem (base ++ HAILO_FILE_EXTENSION) = base.
Proof.
  intros Hne. unfold name_stem. rewrite rfind_dot_hef, length_append.
  assert (0 < String.length base) by (destruct base; simpl; [congruence | lia]).
  replace (0 <? String.length base)%nat with true
    by (symmetry; now apply Nat.ltb_lt).
  replace (String.length base
           <? String.length base + String.length HAILO_FILE_EXTENSION - 1)%nat
    with true by (symmetry; apply Nat.ltb_lt; simpl; lia).
  apply slice_to_append.
Qed.

Lemma ascii_compare_refl (a : ascii) : Ascii.compare a a = Eq.
Proof. unfold Ascii.compare. apply N.compare_refl. Qed.

Lemma ascii_compare_lt_trans (a b c : ascii) :
  Ascii.compare a b = Lt -> Ascii.compare b c = Lt -> Ascii.compare a c = Lt.
Proof.
  unfold Ascii.compare. rewrite !N.compare_lt_iff. apply N.lt_trans.
Qed.

Lemma string_leb_refl (s : string) : String.leb s s = true.
Proof.
  unfold String.leb. induction s as [|c r IH]; simpl; [reflexivity|].
  now rewrite ascii_compare_refl.
Qed.

Lemma string_leb_trans (s1 s2 s3 : string) :
  String.leb s1 s2 = true -> String.leb s2 s3 = true ->
  String.leb s1 s3 = true.
Proof.
  unfold String.leb. revert s2 s3.
  induction s1 as [|a s1 IH]; intros [|b s2] [|c s3]; simpl;
    try reflexivity; try discriminate.
  destruct (Ascii.compare a b) eqn:Eab; try discriminate;
    destruct (Ascii.compare b c) eqn:Ebc; try discriminate;
    try (apply Ascii.compare_eq_iff in Eab; subst b);
    try (apply Ascii.compare_eq_iff in Ebc; subst c);
    rewrite ?ascii_compare_refl, ?Eab, ?Ebc;
    try reflexivity; try discriminate.
  - apply IH.
  - now rewrite (ascii_compare_lt_trans a b c).
Qed.

Section SortedFacts.
Context {A : Type} (key : A -> string).

Let le (a b : A) : Prop := String.leb (key a) (key b) = true.

Lemma insert_perm (x : A) (l : list A) :
  Permutation (Py.insert key x l) (x :: l).
Proof.
  induction l as [|y r IH]; simpl; [reflexivity|].
  destruct (String.leb (key x) (key y)); [reflexivity|].
  rewrite IH. apply perm_swap.
Qed.

Lemma sorted_perm (l : list A) : Permutation (Py.sorted key l) l.
Proof.
  induction l as [|x r IH]; simpl; [reflexivity|].
  rewrite insert_perm. now constructor.
Qed.

Lemma insert_sorted (x : A) (l : list A) :
  StronglySorted le l -> StronglySorted le (Py.insert key x l).
Proof.
  induction 1 as [|y r Hr IH Hy]; simpl; [repeat constructor|].
  destruct (String.leb (key x) (key y)) eqn:E.
  - constructor; [now constructor|].
    constructor; [exact E|].
    eapply Forall_impl; [|exact Hy].
    intros z Hz. eapply string_leb_trans; [exact E | exact Hz].
  - constructor; [exact IH|].
    assert (Hyx : le y x).
    { destruct (String.leb_total (key x) (key y)); [congruence | assumption]. }
    eapply Permutation_Forall; [symmetry; apply insert_perm|].
    now constructor.
Qed.

Lemma sorted_sorted (l : list A) : StronglySorted le (Py.sorted key l).
Proof.
  induction l as [|x r IH]; simpl; [constructor | now apply insert_sorted].
Qed.

(** The sort is stable: elements with the same key keep their order. *)
Lemma insert_stable (k : string) (x : A) (l : list A) :
  filter (fun y => key y =? k) (Py.insert key x l)
  = filter (fun y => key y =? k) (x :: l).
Proof.
  induction l as [|y r IH]; [reflexivity|].
  cbn [Py.insert]. destruct (String.leb (key x) (key y)) eqn:E;
    [reflexivity|].
  cbn [filter] in *. rewrite IH.
  destruct (key x =? k) eqn:Ex; [|reflexivity].
  destruct (key y =? k) eqn:Ey; [|reflexivity].
  apply String.eqb_eq in Ex, Ey.
  rewrite Ex, Ey, string_leb_refl in E. discriminate E.
Qed.

Lemma sorted_stable (k : string) (l : list A) :
  filter (fun y => key y =? k) (Py.sorted key l)
  = filter (fun y => key y =? k) l.
Proof.
  induction l as [|x r IH]; [reflexivity|].
  cbn [Py.sorted fold_right]. fold (Py.sorted key r).
  rewrite insert_stable. cbn [filter]. now rewrite IH.
Qed.
End SortedFacts.

Lemma looks_like_llm_iff (p : Path) :
  looks_like_llm p = true <->
  exists marker a b,
    In marker llm_patterns /\ Py.lower (stem p) = (a ++ marker ++ b)%string.
Proof.
  unfold looks_like_llm. cbv zeta. rewrite existsb_exists. split.
  - intros [marker [Hin H]]. apply contains_iff in H.
    destruct H as [a [b H]]. now exists marker, a, b.
  - intros [marker [a [b [Hin H]]]]. exists marker. split; [exact Hin|].
    apply contains_iff. now exists a, b.
Qed.

Lemma in_glob_suffix (dir : string) (d : dir_state) (suffix : string) (p : Path) :
  In p (glob_suffix dir d suffix) <->
  exists entries n,
    d = Directory entries /\ In n entries /\ p = joinpath dir n
    /\ exists base, n = (base ++ suffix)%string.
Proof.
  destruct d as [| |entries]; simpl.
  1,2: split; [intros [] | intros [? [? [H _]]]; discriminate H].
  rewrite in_map_iff. split.
  - intros [n [<- Hn]]. apply filter_In in Hn. destruct Hn as [Hin He].
    exists entries, n. repeat split; [exact Hin|]. now apply endswith_iff.
  - intros [entries' [n [E [Hin [-> Hb]]]]]. inversion E; subst entries'.
    exists n. split; [reflexivity|]. apply filter_In. split; [exact Hin|].
    now apply endswith_iff.
Qed.

(** C4.  For every state of the models directory the Locator returns the
    entries directly under it whose name ends with the model extension and
    whose lower-cased stem contains one of the markers: each of them as
    often as the directory lists it, in ascending order of the lower-cased
    stem, entries with equal keys in scan order.  The stem of a returned
    entry is its name without the extension.  For a missing directory, and
    for something that is not a directory, the result is the empty list;
    the function is total, no state makes it fail. *)
Theorem locator_returns_sorted_llm_models (D : Defines) (d : dir_state) :
  let models := get_downloaded_llm_models D d in
  let candidates :=
    filter looks_like_llm
           (glob_suffix (models_dir D) d HAILO_FILE_EXTENSION) in
  (forall p,
     In p models <->
     exists entries n,
       d = Directory entries /\ In n entries
       /\ p = joinpath (models_dir D) n
       /\ (exists base, n = (base ++ HAILO_FILE_EXTENSION)%string)
       /\ exists marker a b,
            In marker llm_patterns
            /\ Py.lower (stem p) = (a ++ marker ++ b)%string)
  /\ Permutation models candidates
  /\ StronglySorted
       (fun a b => String.leb (Py.lower (stem a)) (Py.lower (stem b)) = true)
       models
  /\ (forall k, filter (fun p => Py.lower (stem p) =? k) models
                = filter (fun p => Py.lower (stem p) =? k) candidates)
  /\ (forall p, In p models ->
                name p = (stem p ++ HAILO_FILE_EXTENSION)%string)
  /\ get_downloaded_llm_models D Missing = []
  /\ get_downloaded_llm_models D NotADirectory = [].
Proof.
  intros models candidates.
  assert (Hperm : Permutation models candidates).
  { unfold models, get_downloaded_llm_models.
    destruct d; [reflexivity | apply sorted_perm | apply sorted_perm]. }
  assert (Hin : forall p,
             In p models <->
             exists entries n,
               d = Directory entries /\ In n entries
               /\ p = joinpath (models_dir D) n
               /\ (exists base, n = (base ++ HAILO_FILE_EXTENSION)%string)
               /\ exists marker a b,
                    In marker llm_patterns
                    /\ Py.lower (stem p) = (a ++ marker ++ b)%string).
  { intros p. split.
    - intros H. apply (Permutation_in _ Hperm) in H.
      apply filter_In in H. destruct H as [Hg Hl].
      apply in_glob_suffix in Hg.
      destruct Hg as [entries [n [Hd [Hn [Hp Hb]]]]].
      exists entries, n. repeat split; try assumption.
      now apply looks_like_llm_iff.
    - intros [entries [n [Hd [Hn [Hp [Hb Hm]]]]]].
      apply (Permutation_in _ (Permutation_sym Hperm)).
      apply filter_In. split.
      + apply in_glob_suffix. now exists entries, n.
      + now apply looks_like_llm_iff. }
  split; [exact Hin|]. split; [exact Hperm|]. split; [|split; [|split]].
  - unfold models, get_downloaded_llm_models.
    destruct d; [constructor | apply (sorted_sorted sort_key) ..].
  - intros k. unfold models, candidates, get_downloaded_llm_models.
    destruct d; [reflexivity | apply (sorted_stable sort_key) ..].
  - intros p Hp. pose proof (proj1 (Hin p) Hp) as H.
    destruct H as [entries [n [_ [_ [-> [[base ->] Hm]]]]]].
    apply looks_like_llm_iff in Hm.
    destruct base as [|c base].
    + discriminate Hm.
    + unfold stem. cbn [name joinpath].
      now rewrite name_stem_hef.
  - split; reflexivity.
Qed.

Lemma locator_returns_sorted_llm_models_witness :
  In (joinpath (models_dir Stub.defines) Stub.qwen)
     (get_downloaded_llm_models Stub.defines
        (Directory ["yolov8n.hef"; Stub.qwen; Stub.llama])).
Proof.
  apply (proj1 (locator_returns_sorted_llm_models Stub.defines _)).
  exists ["yolov8n.hef"; Stub.qwen; Stub.llama], Stub.qwen.
  repeat split.
  - right; left; reflexivity.
  - exists "Qwen2.5-1.5B-Instruct". reflexivity.
  - exists "qwen", "", "2.5-1.5b-instruct". split; [left|]; reflexivity.
Defined.

(** ** The Model Selector *)

(** The quit token is not a number. *)
Lemma quit_token_not_int (choice : string) :
  is_quit_token choice = true -> Py.int choice = None.
Proof.
  unfold is_quit_token. intros H.
  destruct choice as [|c [|c2 r]]; [discriminate H | | ].
  - destruct c as [[] [] [] [] [] [] [] []]; vm_compute in H |- *;
      first [reflexivity | discriminate H].
  - apply String.eqb_eq in H. cbn [Py.lower] in H. discriminate H.
Qed.

(** The quit token is the letter q, in either case. *)
Lemma quit_token_iff (choice : string) :
  is_quit_token choice = true <-> choice = "q" \/ choice = "Q".
Proof.
  unfold is_quit_token. split.
  - intros H. destruct choice as [|c [|c2 r]]; [discriminate H | | ].
    + destruct c as [[] [] [] [] [] [] [] []]; vm_compute in H;
        first [discriminate H | left; reflexivity | right; reflexivity].
    + apply String.eqb_eq in H. cbn [Py.lower] in H. discriminate H.
  - intros [-> | ->]; reflexivity.
Qed.

Section SelectorFacts.
Variable models : list Path.

Lemma in_range_iff (i : Z) :
  ((0 <=? i - 1) && (i - 1 <? Z.of_nat (List.length models)))%Z
  = ((1 <=? i) && (i <=? Z.of_nat (List.length models)))%Z.
Proof.
  destruct (Z.leb_spec 0 (i - 1)), (Z.leb_spec 1 i); try lia;
    destruct (Z.ltb_spec (i - 1) (Z.of_nat (List.length models))),
             (Z.leb_spec i (Z.of_nat (List.length models)));
    try lia; reflexivity.
Qed.

Lemma select_loop_quit (raw : string) (rest : list input_event) :
  is_quit_token (Py.strip raw) = true ->
  select_loop models (Line raw :: rest)
  = ([Input select_prompt; Print "Exiting..."], rest, Exit 0%Z).
Proof.
  unfold is_quit_token. intros H. cbn [select_loop]. cbv zeta.
  now rewrite H.
Qed.

Lemma select_loop_pick (raw : string) (rest : list input_event) (i : Z) :
  Py.int (Py.strip raw) = Some i ->
  (1 <= i <= Z.of_nat (List.length models))%Z ->
  exists model,
    nth_error models (Z.to_nat (i - 1)) = Some model
    /\ select_loop models (Line raw :: rest)
       = ([Input select_prompt], rest, Return model).
Proof.
  intros Hint Hi.
  destruct (nth_error models (Z.to_nat (i - 1))) as [model|] eqn:En.
  - exists model. split; [reflexivity|].
    cbn [select_loop]. cbv zeta.
    destruct (Py.lower (Py.strip raw) =? "q") eqn:Eq.
    + pose proof (quit_token_not_int _ Eq). congruence.
    + rewrite Hint, in_range_iff.
      replace (1 <=? i)%Z with true by (symmetry; apply Z.leb_le; lia).
      replace (i <=? Z.of_nat (List.length models))%Z with true
        by (symmetry; apply Z.leb_le; lia).
      cbn [andb]. now rewrite En.
  - apply nth_error_None in En. lia.
Qed.

Lemma select_loop_retry (raw : string) (rest : list input_event) :
  is_invalid_choice (List.length models) (Py.strip raw) = true ->
  select_loop models (Line raw :: rest)
  = (let '(out, rest', r) := select_loop models rest in
     (Input select_prompt :: Print (retry_message (List.length models) (Py.strip raw)) :: out,
      rest', r)).
Proof.
  unfold is_invalid_choice, is_quit_token, retry_message.
  rewrite andb_true_iff, negb_true_iff. intros [Hq Hi].
  cbn [select_loop]. cbv zeta. rewrite Hq.
  destruct (Py.int (Py.strip raw)) as [i|]; [|reflexivity].
  rewrite in_range_iff. apply negb_true_iff in Hi. now rewrite Hi.
Qed.

Lemma select_loop_retries (bad : list string) (rest : list input_event) :
  Forall (fun b => is_invalid_choice (List.length models) (Py.strip b) = true)
         bad ->
  exists reprompts,
    select_loop models (map Line bad ++ rest)
    = (let '(out, rest', r) := select_loop models rest in
       (reprompts ++ out, rest', r))
    /\ prompts_of reprompts = repeat select_prompt (List.length bad)
    /\ calls_of reprompts = [].
Proof.
  induction 1 as [|b bad Hb _ IH].
  - exists []. cbn [map app List.length repeat].
    destruct (select_loop models rest) as [[out rest'] r]. now repeat split.
  - destruct IH as [reprompts [E [Hp Hc]]].
    exists (Input select_prompt :: Print (retry_message (List.length models) (Py.strip b))
            :: reprompts).
    cbn [map app]. rewrite (select_loop_retry b _ Hb), E.
    destruct (select_loop models rest) as [[out rest'] r].
    split; [reflexivity|]. split.
    + unfold prompts_of in *. cbn [flat_map app List.length repeat].
      now rewrite Hp.
    + exact Hc.
Qed.
End SelectorFacts.

Lemma prompts_of_app (a b : list event) :
  prompts_of (a ++ b) = prompts_of a ++ prompts_of b.
Proof. apply flat_map_app. Qed.

Lemma calls_of_app (a b : list event) :
  calls_of (a ++ b) = calls_of a ++ calls_of b.
Proof. apply flat_map_app. Qed.

Lemma prompts_of_menu (i : nat) (models : list Path) :
  prompts_of (menu_lines i models) = [].
Proof. revert i; induction models as [|m r IH]; intros i; simpl; auto. Qed.

Lemma calls_of_menu (i : nat) (models : list Path) :
  calls_of (menu_lines i models) = [].
Proof. revert i; induction models as [|m r IH]; intros i; simpl; auto. Qed.

(** How the selection loop can end, and what it does meanwhile: it exits
    with code 0 only, lets only [EOFError] and [KeyboardInterrupt] escape,
    asks with the selection prompt only and calls nothing. *)
Lemma select_loop_outcome (models : list Path) (inputs : list input_event) :
  let '(out, _, r) := select_loop models inputs in
  match r with
  | Exit code => code = 0%Z
  | Raise e => e = EOFError \/ e = KeyboardInterrupt
  | _ => True
  end
  /\ (forall p, In p (prompts_of out) -> p = select_prompt)
  /\ calls_of out = [].
Proof.
  assert (Hone : forall p, In p [select_prompt] -> p = select_prompt)
    by (intros p [<-|[]]; reflexivity).
  induction inputs as [|ev rest IH]; [simpl; auto|].
  destruct ev as [raw| |]; cbn [select_loop]; cbv zeta.
  2,3: (simpl; repeat split; auto).
  destruct (select_loop models rest) as [[out rest'] r].
  destruct IH as [Hr [Hp Hc]].
  assert (Hp' : forall msg p,
             In p (prompts_of (Input select_prompt :: Print msg :: out)) ->
             p = select_prompt)
    by (intros msg p [<-|H]; [reflexivity | now apply Hp]).
  destruct (Py.lower (Py.strip raw) =? "q"); [simpl; auto|].
  destruct (Py.int (Py.strip raw)) as [n|]; [|split; [exact Hr|]; eauto].
  destruct ((0 <=? n - 1) && (n - 1 <? Z.of_nat (List.length models)))%Z
    eqn:Erange; [|split; [exact Hr|]; eauto].
  destruct (nth_error models (Z.to_nat (n - 1))) eqn:En; [simpl; auto|].
  apply nth_error_None in En. apply andb_true_iff in Erange.
  destruct Erange as [H0 H1]. apply Z.leb_le in H0. apply Z.ltb_lt in H1. lia.
Qed.

Lemma select_model_outcome (models : list Path) (inputs : list input_event) :
  let '(out, _, r) := select_model models inputs in
  match r with
  | Exit code => code = 0%Z
  | Raise e => e = EOFError \/ e = KeyboardInterrupt
  | _ => True
  end
  /\ (forall p, In p (prompts_of out) -> p = select_prompt)
  /\ calls_of out = [].
Proof.
  unfold select_model. pose proof (select_loop_outcome models inputs) as H.
  destruct (select_loop models inputs) as [[out rest] r].
  destruct H as [Hr [Hp Hc]]. split; [exact Hr|].
  rewrite !prompts_of_app, !calls_of_app, prompts_of_menu, calls_of_menu, Hc.
  split; [|reflexivity]. intros p Hin. apply Hp. exact Hin.
Qed.

(** ** The entry point *)

Section MainFacts.
Variable D : Defines.
Variable R : Runtime.
Variable fs : FileSystem.

Lemma find_or_select_not_given (args : Args) (inputs : list input_event) :
  hef_path_given args = false ->
  find_or_select D fs args inputs = discover D fs inputs.
Proof.
  unfold hef_path_given, find_or_select.
  destruct (hef_path args) as [given|]; [|reflexivity].
  now intros ->.
Qed.

Lemma find_or_select_given (args : Args) (inputs : list input_event)
                           (given : string) :
  hef_path args = Some given -> given <> "" ->
  find_or_select D fs args inputs = resolve fs given inputs.
Proof.
  unfold find_or_select. intros -> Hne.
  apply String.eqb_neq in Hne. now rewrite Hne.
Qed.

(** An iteration of the chat loop always ends in [continue] or [break]:
    nothing escapes the [except] clauses. *)
Lemma chat_iteration_contained (st : chat_state R) (ev : input_event) :
  exists f, snd (chat_iteration R st ev) = Return f.
Proof.
  unfold chat_iteration.
  destruct (try_body R st ev) as [[st' out] r] eqn:E.
  destruct r as [f|e|code|]; cbn [snd].
  - now exists f.
  - destruct e; cbn [is_Exception snd]; eauto.
  - exfalso. unfold try_body, on_clear, on_system, on_utterance in E.
    repeat match type of E with
           | context [match ?x with _ => _ end] => destruct x
           end; discriminate E.
  - exfalso. unfold try_body, on_clear, on_system, on_utterance in E.
    repeat match type of E with
           | context [match ?x with _ => _ end] => destruct x
           end; discriminate E.
Qed.

Lemma chat_loop_ends (inputs : list input_event) (st : chat_state R) :
  snd (chat_loop R st inputs) = Return tt
  \/ snd (chat_loop R st inputs) = Blocked.
Proof.
  revert st. induction inputs as [|ev rest IH]; intros st; [now right|].
  cbn [chat_loop].
  destruct (chat_iteration_contained st ev) as [f Hf].
  destruct (chat_iteration R st ev) as [[st' out] r]. cbn [snd] in Hf.
  subst r. destruct f; [|now left].
  specialize (IH st').
  destruct (chat_loop R st' rest) as [[[st'' out'] rest'] r']. exact IH.
Qed.

Lemma prompts_of_teardown (l : option (llm R)) (v : option (vdevice R)) :
  prompts_of (teardown R l v) = [].
Proof.
  unfold teardown. rewrite prompts_of_app.
  destruct l as [h|]; [destruct (clear_context R h) as [[[]|?] h'];
                       [destruct (llm_release R h')|]|];
    (destruct v as [d|]; [destruct (vdevice_release R d)|]); reflexivity.
Qed.
End MainFacts.

Section StartFacts.
Variable D : Defines.
Variable R : Runtime.
Variable fs : FileSystem.



(** How "find or select" can end. *)
Lemma find_or_select_outcome (args : Args) (inputs : list input_event) :
  let '(out, _, r) := find_or_select D fs args inputs in
  match r with
  | Exit code =>
      (code = 1%Z /\ (no_models_found D fs args = true
                      \/ path_unresolved fs args = true))
      \/ code = 0%Z
  | Raise e => e = EOFError \/ e = KeyboardInterrupt
  | _ => True
  end
  /\ (forall p, In p (prompts_of out) -> p = select_prompt)
  /\ calls_of out = [].
Proof.
  assert (Hd : hef_path_given args = false ->
               let '(out, _, r) := discover D fs inputs in
               match r with
               | Exit code =>
                   (code = 1%Z /\ (no_models_found D fs args = true
                                   \/ path_unresolved fs args = true))
                   \/ code = 0%Z
               | Raise e => e = EOFError \/ e = KeyboardInterrupt
               | _ => True
               end
               /\ (forall p, In p (prompts_of out) -> p = select_prompt)
               /\ calls_of out = []).
  { intros Hg. unfold discover, no_models_found. rewrite Hg.
    destruct (get_downloaded_llm_models D (models_dir_state fs))
      as [|m [|m2 ms]].
    - simpl. repeat split; [now left; auto | intros p []].
    - simpl. repeat split. intros p [].
    - pose proof (select_model_outcome (m :: m2 :: ms) inputs) as H.
      destruct (select_model (m :: m2 :: ms) inputs) as [[out rest] r].
      destruct H as [Hr H]. split; [|exact H].
      destruct r; auto. }
  unfold find_or_select.
  destruct (hef_path args) as [given|] eqn:Eg.
  - destruct (given =? "") eqn:Ee; cbn [negb].
    + apply Hd. unfold hef_path_given. now rewrite Eg, Ee.
    + unfold resolve, path_unresolved. rewrite Eg, Ee.
      destruct (path_exists fs given) eqn:E1; cbn [negb andb].
      * rewrite E1. simpl. repeat split. intros p [].
      * destruct (path_exists fs (given ++ HAILO_FILE_EXTENSION));
          simpl; repeat split; auto; intros p [].
  - apply Hd. unfold hef_path_given. now rewrite Eg.
Qed.

(** The [try] block of [main] either fails to acquire a handle, and then
    raises before anything is read, or runs the chat loop, which returns
    or waits. *)
Lemma bootstrap_and_chat_outcome (hef : Path) (args : Args)
                                 (inputs : list input_event) :
  let '(l, v, out, r) := bootstrap_and_chat D R hef args inputs in
  if acquisition_raises D R hef
  then (exists msg, r = Raise (Exception msg)) /\ prompts_of out = []
  else (r = Return tt \/ r = Blocked)
       /\ exists h d, l = Some h /\ v = Some d.
Proof.
  unfold bootstrap_and_chat, acquisition_raises.
  destruct (create_params R) as [[]|msg]; [|simpl; eauto].
  destruct (VDevice R (SHARED_VDEVICE_GROUP_ID D)) as [d|msg];
    [|simpl; eauto].
  destruct (LLM R d (Path_str hef)) as [h|msg]; [|simpl; eauto].
  unfold interactive_chat.
  pose proof (chat_loop_ends R inputs
                (initial_chat R h (system_prompt args))) as He.
  destruct (chat_loop R (initial_chat R h (system_prompt args)) inputs)
    as [[[st out] rest] r].
  cbn [snd] in He. split; [exact He | eauto].
Qed.
End StartFacts.

(** ** Teardown *)

(** C2, as the code has it.  With both handles acquired, the teardown calls
    the context reset, then the model release unless the context reset
    raised, then the device release, in that order; the device release is
    always the last call.  A failure of the model step (context reset or
    release) and a failure of the device release are each logged as one
    warning.  The [except]/[finally] clauses run this teardown at the end
    of whatever they do, for every way the [try] block can end, an
    exception included; and when [main] has acquired both handles and
    ends, the last thing it does is this teardown on the two handles. *)
Theorem teardown_order_and_containment
  (R : Runtime) (h : llm R) (v : vdevice R) (r : outcome unit) :
  let t := teardown R (Some h) (Some v) in
  calls_of t
  = match clear_context R h with
    | (Returns _, _) => full_teardown
    | (Raises _, _) => [LLM_clear_context; VDevice_release]
    end
  /\ warnings_of t
     = match clear_context R h with
       | (Returns _, h') =>
           match llm_release R h' with
           | Returns _ => []
           | Raises msg => [("Error releasing LLM: " ++ msg)%string]
           end
       | (Raises msg, _) => [("Error releasing LLM: " ++ msg)%string]
       end
       ++ match vdevice_release R v with
          | Returns _ => []
          | Raises msg => [("Error releasing VDevice: " ++ msg)%string]
          end
  /\ last (calls_of t) LLM_clear_context = VDevice_release
  /\ (r <> Blocked ->
      exists before,
        fst (except_finally R (Some h) (Some v) r) = before ++ t)
  /\ (forall D fs args inputs out0 rest hef,
        find_or_select D fs args inputs = (out0, rest, Return hef) ->
        acquisition_raises D R hef = false ->
        snd (main D R fs args inputs) <> Blocked ->
        exists before h' v',
          fst (main D R fs args inputs)
          = before ++ teardown R (Some h') (Some v')).
Proof.
  cbv zeta. repeat apply conj.
  5: { intros D fs args inputs out0 rest hef Hsel Hacq Hend.
       unfold main in *. rewrite Hsel in *.
       pose proof (bootstrap_and_chat_outcome D R hef args rest) as Hb.
       destruct (bootstrap_and_chat D R hef args rest) as [[[l' v'] out2] r2].
       rewrite Hacq in Hb. destruct Hb as [Hr [h' [d' [-> ->]]]].
       destruct Hr as [-> | ->]; cbn [except_finally fst snd] in *;
         [|congruence].
       exists ((out0 ++ [Print (Py.nl ++ "Selected model: " ++ stem hef)])
               ++ out2), h', d'.
       now rewrite <- !app_assoc. }
  4: { intros Hr. unfold except_finally.
       destruct r as [[]|e|code|];
         [| destruct (is_Exception e) | | congruence]; cbn [fst];
         first [ exists []; reflexivity | eexists [_]; reflexivity ]. }
  all: unfold teardown, full_teardown;
    destruct (clear_context R h) as [[[]|msg] h'];
    [destruct (llm_release R h') as [[]|msg1]|];
    destruct (vdevice_release R v) as [[]|msg2]; reflexivity.
Qed.

Lemma teardown_order_and_containment_witness :
  let R := Stub.runtime Stub.model_release_fails in
  exists before,
    fst (except_finally R (Some []) (Some tt) (Raise (Exception "boom")))
    = before ++ teardown R (Some []) (Some tt).
Proof.
  intros R.
  refine (proj1 (proj2 (proj2 (proj2 (teardown_order_and_containment
                                        R [] tt (Raise (Exception "boom"))))))
            _).
  discriminate.
Defined.

(** C2 as stated does not hold: when the context reset raises, the model
    release is skipped. *)
Lemma teardown_skips_model_release :
  ~ (forall (R : Runtime) (h : llm R) (v : vdevice R),
       calls_of (teardown R (Some h) (Some v)) = full_teardown).
Proof.
  intros H.
  specialize (H (Stub.runtime Stub.reset_fails) [] tt).
  discriminate H.
Qed.







(** C5.  Let any number of invalid answers (neither the quit token nor a
    number in range) come before the line [raw].  Each of them is answered
    by a message and a new prompt, and the loop then goes on exactly as it
    would have without them.  If [raw] is the quit token (q or Q once
    stripped), [select_model]
    ends in [sys.exit(0)] and returns no model, and the process ends with
    status 0 without touching the device; if [raw] is an integer [i] with
    [1 <= i <= len(models)], [select_model] returns the [i]-th model,
    counting from 1. *)
Theorem select_model_quit_retry_pick
  (models : list Path) (bad : list string) (raw : string)
  (rest : list input_event) :
  Forall (fun b => is_invalid_choice (List.length models) (Py.strip b) = true)
         bad ->
  (exists reprompts,
     select_loop models (map Line bad ++ rest)
     = (let '(out, rest', r) := select_loop models rest in
        (reprompts ++ out, rest', r))
     /\ prompts_of reprompts = repeat select_prompt (List.length bad))
  /\ (is_quit_token (Py.strip raw) = true <->
      Py.strip raw = "q" \/ Py.strip raw = "Q")
  /\ (is_quit_token (Py.strip raw) = true ->
      (exists out,
         select_model models (map Line bad ++ Line raw :: rest)
         = (out, rest, Exit 0%Z))
      /\ forall D R fs args,
           hef_path_given args = false ->
           get_downloaded_llm_models D (models_dir_state fs) = models ->
           2 <= List.length models ->
           let run := main D R fs args (map Line bad ++ Line raw :: rest) in
           snd run = Exit 0%Z /\ exit_status (snd run) = Some 0%Z
           /\ calls_of (fst run) = [])
  /\ (forall i,
        Py.int (Py.strip raw) = Some i ->
        (1 <= i <= Z.of_nat (List.length models))%Z ->
        exists model out,
          nth_error models (Z.to_nat (i - 1)) = Some model
          /\ select_model models (map Line bad ++ Line raw :: rest)
             = (out, rest, Return model)
          /\ prompts_of out = repeat select_prompt (S (List.length bad))).
Proof.
  intros Hbad.
  destruct (select_loop_retries models bad rest Hbad) as [rp1 [E1 [P1 _]]].
  destruct (select_loop_retries models bad (Line raw :: rest) Hbad)
    as [rp [E [P C]]].
  split; [now exists rp1|]. split; [apply quit_token_iff|]. split.
  - intros Hq.
    assert (Hsel : select_model models (map Line bad ++ Line raw :: rest)
                   = ([Print (Py.nl ++ rule); Print "Available LLM Models";
                       Print rule] ++ menu_lines 1 models ++ [Print rule]
                      ++ rp ++ [Input select_prompt; Print "Exiting..."],
                      rest, Exit 0%Z)).
    { unfold select_model. rewrite E, (select_loop_quit models raw rest Hq).
      now rewrite <- !app_assoc. }
    split; [eexists; exact Hsel|].
    intros D R fs args Hg Hm Hlen. cbv zeta. unfold main.
    rewrite (find_or_select_not_given D fs args _ Hg). unfold discover.
    rewrite Hm.
    destruct models as [|m [|m2 ms]]; [simpl in Hlen; lia ..|].
    rewrite Hsel. cbn [fst snd exit_status]. repeat split.
    rewrite !calls_of_app, calls_of_menu, C. reflexivity.
  - intros i Hi Hrange.
    destruct (select_loop_pick models raw rest i Hi Hrange) as [model [Hn Hs]].
    exists model. eexists. split; [exact Hn|].
    unfold select_model. rewrite E, Hs. split; [reflexivity|].
    rewrite !prompts_of_app, prompts_of_menu, P.
    cbn [prompts_of flat_map app].
    replace (S (List.length bad)) with (List.length bad + 1) by lia.
    now rewrite repeat_app.
Qed.

Lemma select_model_quit_retry_pick_witness :
  (exists out,
     select_model Stub.two_models [Line "0"; Line "three"; Line " Q "; Line "1"]
     = (out, [Line "1"], Exit 0%Z))
  /\ exists model out,
       nth_error Stub.two_models (Z.to_nat (2 - 1)) = Some model
       /\ select_model Stub.two_models
                       [Line "0"; Line "three"; Line " 2"; Line "1"]
          = (out, [Line "1"], Return model)
       /\ prompts_of out = repeat select_prompt 3.
Proof.
  assert (Hbad : Forall (fun b => is_invalid_choice
                                    (List.length Stub.two_models)
                                    (Py.strip b) = true) ["0"; "three"])
    by (repeat constructor).
  split.
  - exact (proj1 (proj1 (proj2 (proj2 (select_model_quit_retry_pick
                                         Stub.two_models ["0"; "three"] " Q "
                                         [Line "1"] Hbad))) eq_refl)).
  - refine (proj2 (proj2 (proj2 (select_model_quit_retry_pick
                                   Stub.two_models ["0"; "three"] " 2"
                                   [Line "1"] Hbad))) 2%Z eq_refl _).
    simpl. lia.
Defined.

Section PromptFacts.
Variable D : Defines.
Variable R : Runtime.

(** Every iteration of the chat loop asks once, with the chat prompt. *)
Lemma chat_iteration_prompts (st : chat_state R) (ev : input_event) :
  prompts_of (snd (fst (chat_iteration R st ev))) = [chat_prompt].
Proof.
  unfold chat_iteration, try_body, on_clear, on_system, on_utterance.
  destruct ev as [raw| |]; cbv zeta; try reflexivity.
  repeat match goal with
         | |- context [if ?b then _ else _] => destruct b
         | |- context [clear_context R ?h] =>
             destruct (clear_context R h) as [[[]|?] ?]
         | |- context [generate_all R ?h ?c ?t ?m] =>
             destruct (generate_all R h c t m) as [[?|?] ?]
         end; reflexivity.
Qed.

Lemma chat_loop_prompts (inputs : list input_event) (st : chat_state R) :
  forall p,
    In p (prompts_of (snd (fst (fst (chat_loop R st inputs))))) ->
    p = chat_prompt.
Proof.
  revert st. induction inputs as [|ev rest IH]; intros st p.
  - intros [<-|[]]. reflexivity.
  - cbn [chat_loop]. pose proof (chat_iteration_prompts st ev) as H1.
    destruct (chat_iteration R st ev) as [[st1 out1] r1]. cbn [fst snd] in H1.
    assert (Hone : In p (prompts_of out1) -> p = chat_prompt)
      by (rewrite H1; intros [<-|[]]; reflexivity).
    destruct r1 as [[|]|e|code|]; cbn [fst snd]; try exact Hone.
    specialize (IH st1 p).
    destruct (chat_loop R st1 rest) as [[[st2 out2] rest2] r2].
    cbn [fst snd] in *. rewrite prompts_of_app. intros Hin.
    apply in_app_or in Hin. destruct Hin; auto.
Qed.

Lemma bootstrap_and_chat_prompts (hef : Path) (args : Args)
                                 (inputs : list input_event) :
  forall p,
    In p (prompts_of
            (snd (fst (bootstrap_and_chat D R hef args inputs)))) ->
    p = chat_prompt.
Proof.
  intros p. unfold bootstrap_and_chat.
  destruct (create_params R) as [[]|msg]; [|intros []].
  destruct (VDevice R (SHARED_VDEVICE_GROUP_ID D)) as [d|msg]; [|intros []].
  destruct (LLM R d (Path_str hef)) as [h|msg]; [|intros []].
  unfold interactive_chat.
  pose proof (chat_loop_prompts inputs
                (initial_chat R h (system_prompt args)) p) as H.
  destruct (chat_loop R (initial_chat R h (system_prompt args)) inputs)
    as [[[st out] rest] r].
  cbn [fst snd] in *. rewrite !prompts_of_app. intros Hin.
  repeat (apply in_app_or in Hin; destruct Hin as [Hin|Hin]);
    try contradiction; auto.
Qed.

Lemma prompts_of_except_finally (l : option (llm R)) (v : option (vdevice R))
                                (r : outcome unit) :
  prompts_of (fst (except_finally R l v r)) = [].
Proof.
  unfold except_finally.
  destruct r as [[]|e|code|]; [| destruct (is_Exception e) | |];
    cbn [fst]; rewrite ?prompts_of_app, ?prompts_of_teardown; reflexivity.
Qed.
End PromptFacts.

(** C9.  With no path given and exactly one model discovered, "find or
    select" reports the model and returns it: it asks nothing and reads
    nothing.  [main] goes on with that model and with the whole input,
    and no selection prompt appears anywhere in what it does. *)
Theorem single_model_selected_without_prompt
  (D : Defines) (R : Runtime) (fs : FileSystem) (args : Args)
  (inputs : list input_event) (only : Path) :
  hef_path_given args = false ->
  get_downloaded_llm_models D (models_dir_state fs) = [only] ->
  let report := Print (Py.nl ++ "Using only available model: " ++ stem only) in
  find_or_select D fs args inputs = ([report], inputs, Return only)
  /\ main D R fs args inputs
     = (let '(l, v, out2, r) := bootstrap_and_chat D R only args inputs in
        let '(out3, r') := except_finally R l v r in
        (([report] ++ [Print (Py.nl ++ "Selected model: " ++ stem only)])
         ++ out2 ++ out3, r'))
  /\ ~ In select_prompt (prompts_of (fst (main D R fs args inputs))).
Proof.
  intros Hg Hm report.
  assert (Hsel : find_or_select D fs args inputs
                 = ([report], inputs, Return only)).
  { rewrite (find_or_select_not_given D fs args inputs Hg).
    unfold discover. now rewrite Hm. }
  assert (Hmain : main D R fs args inputs
     = (let '(l, v, out2, r) := bootstrap_and_chat D R only args inputs in
        let '(out3, r') := except_finally R l v r in
        (([report] ++ [Print (Py.nl ++ "Selected model: " ++ stem only)])
         ++ out2 ++ out3, r'))).
  { unfold main. rewrite Hsel. reflexivity. }
  split; [exact Hsel|]. split; [exact Hmain|].
  rewrite Hmain.
  pose proof (bootstrap_and_chat_prompts D R only args inputs select_prompt)
    as Hb.
  destruct (bootstrap_and_chat D R only args inputs) as [[[l v] out2] r].
  pose proof (prompts_of_except_finally R l v r) as Hf.
  destruct (except_finally R l v r) as [out3 r']. cbn [fst snd] in *.
  rewrite !prompts_of_app, Hf, app_nil_r. subst report.
  cbn [prompts_of flat_map app]. rewrite app_nil_r.
  intros Hin. apply Hb in Hin. discriminate Hin.
Qed.

Lemma single_model_selected_without_prompt_witness :
  let only := joinpath (models_dir Stub.defines) Stub.qwen in
  find_or_select Stub.defines (Stub.fs_with ["yolov8n.hef"; Stub.qwen])
                 Stub.no_args [Line "hello"]
  = ([Print (Py.nl ++ "Using only available model: Qwen2.5-1.5B-Instruct")],
     [Line "hello"], Return only).
Proof.
  intros only.
  exact (proj1 (single_model_selected_without_prompt
                  Stub.defines (Stub.runtime Stub.healthy)
                  (Stub.fs_with ["yolov8n.hef"; Stub.qwen]) Stub.no_args
                  [Line "hello"] only eq_refl eq_refl)).
Defined.

(** * Further properties of the program *)

(** ** How the chat loop ends, and what it ignores *)

Section LoopFacts.
Variable R : Runtime.

(** An iteration ends in [break] exactly for a quit command and for
    Ctrl-C. *)
Lemma chat_iteration_flow (st : chat_state R) (ev : input_event) :
  snd (chat_iteration R st ev)
  = Return (if ends_loop ev then Break else Continue).
Proof.
  destruct ev as [raw| |]; [|reflexivity|reflexivity].
  unfold chat_iteration, try_body, ends_loop, is_quit_command. cbv zeta.
  destruct (Py.strip raw =? "") eqn:E.
  - apply String.eqb_eq in E. rewrite E. reflexivity.
  - destruct (existsb (String.eqb (Py.lower (Py.strip raw)))
                      ["/quit"; "/exit"]); [reflexivity|].
    unfold on_clear, on_system, on_utterance.
    repeat match goal with
           | |- context [clear_context R ?h] =>
               destruct (clear_context R h) as [[[]|?] ?]
           | |- context [generate_all R ?h ?c ?t ?m] =>
               destruct (generate_all R h c t m) as [[?|?] ?]
           | |- _ => progress cbn [is_Exception snd]
           | |- context [if ?b then _ else _] => destruct b
           end; reflexivity.
Qed.

Lemma chat_iteration_inert (st : chat_state R) (ev : input_event) :
  inert ev = true ->
  exists out,
    chat_iteration R st ev = (st, out, Return Continue) /\ calls_of out = [].
Proof.
  destruct ev as [raw| |]; cbn [inert]; intros H; [| |discriminate H].
  - apply strip_empty_iff in H. unfold chat_iteration, try_body. cbv zeta.
    rewrite H. cbn. eexists. split; reflexivity.
  - eexists. split; reflexivity.
Qed.

Lemma existsb_removelast {A : Type} (f : A -> bool) (l : list A) :
  existsb f l = false -> existsb f (removelast l) = false.
Proof.
  induction l as [|x l IH]; [reflexivity|]. cbn [existsb removelast].
  rewrite orb_false_iff. intros [Hx Hl]. destruct l as [|y l]; [reflexivity|].
  cbn [existsb]. rewrite Hx. exact (IH Hl).
Qed.

Lemma chat_loop_end_cases (inputs : list input_event) (st : chat_state R) :
  let '(_, _, rest, r) := chat_loop R st inputs in
  (r = Return tt
   /\ exists before ev,
        inputs = before ++ ev :: rest
        /\ ends_loop ev = true
        /\ existsb ends_loop before = false)
  \/ (r = Blocked /\ rest = [] /\ existsb ends_loop inputs = false).
Proof.
  revert st. induction inputs as [|ev inputs IH]; intros st.
  - right. repeat split.
  - cbn [chat_loop]. pose proof (chat_iteration_flow st ev) as Hf.
    destruct (chat_iteration R st ev) as [[st1 out1] r1]. cbn [snd] in Hf.
    subst r1. destruct (ends_loop ev) eqn:Eev.
    + left. split; [reflexivity|]. exists [], ev. repeat split. exact Eev.
    + specialize (IH st1).
      destruct (chat_loop R st1 inputs) as [[[st2 out2] rest2] r2].
      destruct IH as [[-> [before [ev' [-> [He Hb]]]]] | [-> [-> Hn]]].
      * left. split; [reflexivity|]. exists (ev :: before), ev'.
        repeat split; [exact He|]. cbn [existsb]. now rewrite Eev.
      * right. repeat split. cbn [existsb]. now rewrite Eev.
Qed.

(** X1.  Scope: Ctrl-C is an input event at the prompt, and a call into
    the runtime returns or raises an [Exception]; a Ctrl-C that arrives
    while a runtime call is running is not among the modelled events (the
    same [except KeyboardInterrupt] would end the loop for it too).
    Nothing is ever read past the first quit command or Ctrl-C of the
    input.  Within the scope these are the only ways the loop ends: it
    returns exactly at the first quit command or Ctrl-C read at its
    prompt and leaves the input after it unread; without one it uses the
    whole input up and waits; no [Exception] raised by the runtime, and
    no end of input, leaves the loop or ends the process. *)
Theorem chat_loop_ends_at_first_quit
  (inputs : list input_event) (st : chat_state R) :
  let '(_, _, rest, r) := chat_loop R st inputs in
  (exists read,
     inputs = read ++ rest
     /\ existsb ends_loop (removelast read) = false)
  /\ ((r = Return tt
       /\ exists before ev,
            inputs = before ++ ev :: rest
            /\ ends_loop ev = true
            /\ existsb ends_loop before = false)
      \/ (r = Blocked /\ rest = [] /\ existsb ends_loop inputs = false)).
Proof.
  pose proof (chat_loop_end_cases inputs st) as H.
  destruct (chat_loop R st inputs) as [[[st' out] rest] r].
  split; [|exact H].
  destruct H as [[_ [before [ev [-> [_ Hb]]]]] | [_ [-> Hn]]].
  - exists (before ++ [ev]). split; [now rewrite <- app_assoc|].
    now rewrite removelast_last.
  - exists inputs. split; [now rewrite app_nil_r|].
    now apply existsb_removelast.
Qed.

(** X2.  End of input at the chat prompt does not end the loop: each
    [EOFError] is reported as a generation error and the loop asks again.
    Over an input that stays at its end the loop never returns; it changes
    nothing, calls nothing and reports one error per read. *)
Theorem chat_loop_survives_end_of_input (n : nat) (st : chat_state R) :
  let '(st', out, rest, r) := chat_loop R st (repeat EOF n) in
  st' = st /\ rest = [] /\ r = Blocked
  /\ calls_of out = []
  /\ errors_of out
     = repeat "Error generating response: EOF when reading a line" n
  /\ prompts_of out = repeat chat_prompt (S n).
Proof.
  induction n as [|n IH]; [now repeat split|].
  cbn [repeat chat_loop chat_iteration try_body is_Exception].
  destruct (chat_loop R st (repeat EOF n)) as [[[st' out] rest] r].
  destruct IH as [-> [-> [-> [Hc [He Hp]]]]].
  repeat split.
  - exact Hc.
  - unfold errors_of in *. cbn. now rewrite He.
  - unfold prompts_of in *. cbn. now rewrite Hp.
Qed.

(** X3.  Blank lines and end-of-input reads are inert: taking them out of
    the input changes neither the state the loop ends in, nor how it ends,
    nor the calls into the runtime, nor which later input stays unread. *)
Theorem chat_loop_skips_inert_inputs
  (inputs : list input_event) (st : chat_state R) :
  let active := filter (fun ev => negb (inert ev)) in
  let '(st1, out1, rest1, r1) := chat_loop R st inputs in
  let '(st2, out2, rest2, r2) := chat_loop R st (active inputs) in
  st2 = st1 /\ r2 = r1 /\ calls_of out2 = calls_of out1
  /\ rest2 = active rest1.
Proof.
  cbv zeta. revert st. induction inputs as [|ev inputs IH]; intros st.
  - now repeat split.
  - cbn [filter]. destruct (inert ev) eqn:Ei; cbn [negb].
    + cbn [chat_loop].
      destruct (chat_iteration_inert st ev Ei) as [out [-> Hc]].
      specialize (IH st).
      destruct (chat_loop R st inputs) as [[[st1 out1] rest1] r1].
      destruct (chat_loop R st (filter (fun e => negb (inert e)) inputs))
        as [[[st2 out2] rest2] r2].
      destruct IH as [-> [-> [Hcalls ->]]]. repeat split.
      now rewrite calls_of_app, Hc.
    + cbn [chat_loop]. pose proof (chat_iteration_flow st ev) as Hf.
      destruct (chat_iteration R st ev) as [[st' out] r]. cbn [snd] in Hf.
      subst r. destruct (ends_loop ev); [now repeat split|].
      specialize (IH st').
      destruct (chat_loop R st' inputs) as [[[st1 out1] rest1] r1].
      destruct (chat_loop R st' (filter (fun e => negb (inert e)) inputs))
        as [[[st2 out2] rest2] r2].
      destruct IH as [-> [-> [Hcalls ->]]]. repeat split.
      now rewrite !calls_of_app, Hcalls.
Qed.
End LoopFacts.

(** ** What a line of the chat does *)

Section LineFacts.
Variable R : Runtime.

(** The calls of one iteration, by the kind of the line. *)
Lemma chat_iteration_calls (st : chat_state R) (raw : string) :
  let user_input := Py.strip raw in
  calls_of (snd (fst (chat_iteration R st (Line raw))))
  = if is_utterance user_input then
      [LLM_generate_all (conversation R st ++ [mk_turn user user_input])
                        temperature max_generated_tokens]
    else if is_reset_command user_input then [LLM_clear_context]
    else [].
Proof.
  cbv zeta. unfold chat_iteration.
  destruct (is_utterance (Py.strip raw)) eqn:Eu.
  - rewrite (try_body_utterance R st raw Eu). unfold on_utterance.
    destruct (generate_all R (handle R st)
                (conversation R st ++ [mk_turn user (Py.strip raw)])
                temperature max_generated_tokens) as [[response|msg] h];
      reflexivity.
  - unfold is_reset_command.
    destruct (Py.lower (Py.strip raw) =? "/clear") eqn:Ec.
    + apply String.eqb_eq in Ec. rewrite (try_body_clear R st raw Ec).
      unfold on_clear.
      destruct (clear_context R (handle R st)) as [[[]|msg] h]; reflexivity.
    + destruct (Py.startswith (Py.lower (Py.strip raw)) "/system ") eqn:Es.
      * rewrite (try_body_system R st raw Es). unfold on_system.
        rewrite (usage_hint_unreachable raw Es).
        destruct (clear_context R (handle R st)) as [[[]|msg] h]; reflexivity.
      * unfold is_utterance in Eu. rewrite Ec, Es in Eu.
        unfold try_body. cbv zeta.
        destruct (Py.strip raw =? "") eqn:Eb; [reflexivity|].
        destruct (existsb (String.eqb (Py.lower (Py.strip raw)))
                          ["/quit"; "/exit"]); [reflexivity | discriminate Eu].
Qed.

(** X4.  A line causes at most one call into the runtime: the generation
    call, on the transcript extended by the stripped line, exactly for an
    utterance; the context reset exactly for [/clear] and for a line that
    starts with "/system "; nothing for a blank line or a quit command.
    Commands are never sent to the model. *)
Theorem line_calls_runtime_at_most_once (st : chat_state R) (raw : string) :
  let user_input := Py.strip raw in
  calls_of (snd (fst (chat_iteration R st (Line raw))))
  = if is_utterance user_input then
      [LLM_generate_all (conversation R st ++ [mk_turn user user_input])
                        temperature max_generated_tokens]
    else if is_reset_command user_input then [LLM_clear_context]
    else [].
Proof. exact (chat_iteration_calls st raw). Qed.

(** The calls of the whole loop are generation calls and context resets. *)
Lemma chat_loop_calls (inputs : list input_event) (st : chat_state R) :
  forallb is_chat_call (calls_of (snd (fst (fst (chat_loop R st inputs)))))
  = true.
Proof.
  revert st. induction inputs as [|ev rest IH]; intros st; [reflexivity|].
  cbn [chat_loop].
  assert (H1 : forallb is_chat_call
                 (calls_of (snd (fst (chat_iteration R st ev)))) = true).
  { destruct ev as [raw| |]; [|reflexivity|reflexivity].
    rewrite chat_iteration_calls.
    destruct (is_utterance (Py.strip raw)); [reflexivity|].
    destruct (is_reset_command (Py.strip raw)); reflexivity. }
  destruct (chat_iteration R st ev) as [[st1 out1] r1]. cbn [fst snd] in H1.
  destruct r1 as [[|]|e|code|]; cbn [fst snd]; try exact H1.
  specialize (IH st1).
  destruct (chat_loop R st1 rest) as [[[st2 out2] rest2] r2].
  cbn [fst snd] in *. now rewrite calls_of_app, forallb_app, H1, IH.
Qed.
End LineFacts.

(** ** The shape of the transcript *)

Lemma answered_app_user (c : transcript) (b : bool) (u : string) :
  answered b c = true -> answered b (c ++ [mk_turn user u]) = true.
Proof.
  revert b. induction c as [|t c IH]; intros b H; [reflexivity|].
  cbn [app answered] in *. destruct (turn_role t); [discriminate H | auto |].
  apply andb_true_iff in H. destruct H as [-> H]. now apply IH.
Qed.

Lemma answered_app_exchange (c : transcript) (b : bool) (u a : string) :
  answered b c = true ->
  answered b (c ++ [mk_turn user u; mk_turn assistant a]) = true.
Proof.
  revert b. induction c as [|t c IH]; intros b H; [reflexivity|].
  cbn [app answered] in *. destruct (turn_role t); [discriminate H | auto |].
  apply andb_true_iff in H. destruct H as [-> H]. now apply IH.
Qed.

Lemma paired_app_exchange (c : transcript) (b : bool) (u a : string) :
  paired b c = true ->
  paired b (c ++ [mk_turn user u; mk_turn assistant a]) = true.
Proof.
  revert b. induction c as [|t c IH]; intros b H.
  - destruct b; [discriminate H | reflexivity].
  - cbn [app paired] in *. destruct (turn_role t); [discriminate H | |];
      apply andb_true_iff in H; destruct H as [-> H]; now apply IH.
Qed.

Section ShapeFacts.
Variable R : Runtime.

(** What one iteration can do to the transcript and to the active prompt:
    nothing; a reset to one system turn with the active prompt; a change
    of the active prompt alone, when the reset of a [/system] raises; an
    exchange appended; a user turn appended, when the generation raises. *)
Lemma chat_iteration_step (st : chat_state R) (ev : input_event) :
  let st' := fst (fst (chat_iteration R st ev)) in
  (conversation R st' = conversation R st
   /\ active_prompt R st' = active_prompt R st)
  \/ (exists h', clear_context R (handle R st) = (Returns tt, h')
                 /\ conversation R st' = [system_turn (active_prompt R st')])
  \/ (exists msg h', clear_context R (handle R st) = (Raises msg, h')
                     /\ conversation R st' = conversation R st)
  \/ (exists u response h',
        generate_all R (handle R st) (conversation R st ++ [mk_turn user u])
                     temperature max_generated_tokens = (Returns response, h')
        /\ conversation R st'
           = conversation R st
             ++ [mk_turn user u; mk_turn assistant (clean response)]
        /\ active_prompt R st' = active_prompt R st)
  \/ (exists u msg h',
        generate_all R (handle R st) (conversation R st ++ [mk_turn user u])
                     temperature max_generated_tokens = (Raises msg, h')
        /\ conversation R st' = conversation R st ++ [mk_turn user u]
        /\ active_prompt R st' = active_prompt R st).
Proof.
  cbv zeta. destruct ev as [raw| |]; [|now left|now left].
  unfold chat_iteration, try_body. cbv zeta.
  destruct (Py.strip raw =? ""); [now left|].
  destruct (existsb (String.eqb (Py.lower (Py.strip raw))) ["/quit"; "/exit"]);
    [now left|].
  destruct (Py.lower (Py.strip raw) =? "/clear").
  { unfold on_clear.
    destruct (clear_context R (handle R st)) as [[[]|msg] h] eqn:E.
    - right; left. now exists h.
    - now left. }
  destruct (Py.startswith (Py.lower (Py.strip raw)) "/system ").
  { unfold on_system.
    destruct (negb (Py.strip (Py.slice_from 8 (Py.strip raw)) =? ""));
      [|now left].
    destruct (clear_context R (handle R st)) as [[[]|msg] h] eqn:E.
    - right; left. now exists h.
    - right; right; left. now exists msg, h. }
  unfold on_utterance.
  destruct (generate_all R (handle R st)
              (conversation R st ++ [mk_turn user (Py.strip raw)])
              temperature max_generated_tokens) as [[response|msg] h] eqn:E.
  - right; right; right; left. exists (Py.strip raw), response, h.
    cbn [fst conversation active_prompt]. rewrite <- app_assoc. now repeat split.
  - right; right; right; right. exists (Py.strip raw), msg, h.
    now repeat split.
Qed.

Lemma chat_iteration_well_shaped (st : chat_state R) (ev : input_event) :
  well_shaped R st -> well_shaped R (fst (fst (chat_iteration R st ev))).
Proof.
  intros [p0 [tail [Hc [Ha [Hr Hg]]]]].
  pose proof (chat_iteration_step st ev) as Hstep. cbv zeta in Hstep.
  destruct (fst (fst (chat_iteration R st ev))) as [conv' prompt' h'].
  cbn [conversation active_prompt] in Hstep. unfold well_shaped.
  cbn [conversation active_prompt].
  destruct Hstep as [[-> ->] | [[h1 [E ->]] | [[msg [h1 [E ->]]] |
                    [[u [resp [h1 [E [-> ->]]]]] | [u [msg [h1 [E [-> ->]]]]]]]]].
  - exists p0, tail. auto.
  - exists prompt', []. repeat split.
  - exists p0, tail. repeat split; auto.
    intros Hreset. destruct (Hreset (handle R st)) as [h2 E2]. congruence.
  - exists p0, (tail ++ [mk_turn user u; mk_turn assistant (clean resp)]).
    rewrite Hc. repeat split; auto.
    + now apply answered_app_exchange.
    + intros H. apply paired_app_exchange. auto.
  - exists p0, (tail ++ [mk_turn user u]). rewrite Hc. repeat split; auto.
    + now apply answered_app_user.
    + intros Hgen.
      destruct (Hgen (handle R st) (system_turn p0 :: tail ++ [mk_turn user u])
                     temperature max_generated_tokens) as [r2 [h2 E2]].
      rewrite Hc in E. cbn [app] in E. congruence.
Qed.

Lemma chat_loop_well_shaped (inputs : list input_event) (st : chat_state R) :
  well_shaped R st -> well_shaped R (fst (fst (fst (chat_loop R st inputs)))).
Proof.
  revert st. induction inputs as [|ev rest IH]; intros st H; [exact H|].
  cbn [chat_loop]. pose proof (chat_iteration_well_shaped st ev H) as H1.
  destruct (chat_iteration R st ev) as [[st1 out1] r1]. cbn [fst] in H1.
  destruct r1 as [[|]|e|code|]; cbn [fst]; try exact H1.
  specialize (IH st1 H1).
  destruct (chat_loop R st1 rest) as [[[st2 out2] rest2] r2]. exact IH.
Qed.

(** X5.  In every state [interactive_chat] can be in, the transcript is
    one system turn followed by user and assistant turns in which every
    assistant turn directly follows a user turn.  If the context reset of
    the runtime never raises, the system turn carries the active system
    prompt; if the generation never raises, user and assistant turns
    alternate strictly, every user turn followed by its answer. *)
Theorem transcript_is_well_shaped
  (h : llm R) (system_prompt : string) (inputs : list input_event) :
  well_shaped R
    (fst (fst (fst (interactive_chat R h system_prompt inputs)))).
Proof.
  unfold interactive_chat.
  pose proof (chat_loop_well_shaped inputs (initial_chat R h system_prompt))
    as H.
  destruct (chat_loop R (initial_chat R h system_prompt) inputs)
    as [[[st out] rest] r].
  apply H. exists system_prompt, []. repeat split.
Qed.
End ShapeFacts.

Lemma transcript_is_well_shaped_witness :
  let R := Stub.runtime Stub.healthy in
  let st := fst (fst (fst (interactive_chat R [] default_system_prompt
                             [Line "hello"; Line "/system Be brief.";
                              Line "hi"; Line ""]))) in
  exists p0 tail,
    conversation R st = system_turn p0 :: tail
    /\ p0 = active_prompt R st
    /\ paired false tail = true.
Proof.
  intros R st.
  destruct (transcript_is_well_shaped R [] default_system_prompt
              [Line "hello"; Line "/system Be brief."; Line "hi"; Line ""])
    as [p0 [tail [Hc [_ [Hr Hg]]]]].
  exists p0, tail. split; [exact Hc|]. split.
  - apply Hr. intros h. exists []. reflexivity.
  - apply Hg. intros h c t m. eexists. eexists. reflexivity.
Defined.

(** ** The [/system] command *)

Lemma lower_append (a b : string) :
  Py.lower (a ++ b) = (Py.lower a ++ Py.lower b)%string.
Proof. induction a; simpl; congruence. Qed.

Lemma lower_char_slash (c : ascii) : Py.lower_char c = "/"%char -> c = "/"%char.
Proof.
  destruct c as [[] [] [] [] [] [] [] []]; vm_compute; intros H;
    first [reflexivity | discriminate H].
Qed.

Lemma rstrip_app_nonblank (s t : string) :
  all_space t = false -> Py.rstrip (s ++ t) = (s ++ Py.rstrip t)%string.
Proof.
  intros Ht. induction s as [|c r IH]; [reflexivity|].
  cbn [append Py.rstrip]. rewrite IH.
  destruct (r ++ Py.rstrip t)%string eqn:E; [|reflexivity].
  exfalso. destruct r; [|discriminate E]. cbn [append] in E.
  apply rstrip_empty_iff in E. congruence.
Qed.

Lemma rstrip_idempotent (s : string) : Py.rstrip (Py.rstrip s) = Py.rstrip s.
Proof.
  induction s as [|c r IH]; [reflexivity|]. cbn [Py.rstrip].
  destruct (Py.rstrip r) as [|d r'] eqn:E.
  - destruct (Py.isspace c) eqn:Hc; [reflexivity|].
    cbn [Py.rstrip]. now rewrite Hc.
  - assert (Hcons : forall x y, Py.rstrip x = y -> y <> "" ->
                                Py.rstrip (String c x) = String c y).
    { intros x y <- Hy. cbn [Py.rstrip].
      destruct (Py.rstrip x); [congruence | reflexivity]. }
    apply Hcons; [exact IH | discriminate].
Qed.

Lemma lstrip_rstrip (s : string) :
  Py.lstrip (Py.rstrip s) = Py.rstrip (Py.lstrip s).
Proof.
  induction s as [|c r IH]; [reflexivity|]. cbn [Py.rstrip Py.lstrip].
  destruct (Py.isspace c) eqn:Hc.
  - destruct (Py.rstrip r) as [|d r'] eqn:E.
    + rewrite <- IH. reflexivity.
    + cbn [Py.lstrip]. now rewrite Hc.
  - destruct (Py.rstrip r) as [|d r'] eqn:E; cbn [Py.lstrip Py.rstrip];
      now rewrite Hc, ?E.
Qed.

(** Stripping is idempotent, and stripping the right end first changes
    nothing. *)
Lemma strip_rstrip (s : string) : Py.strip (Py.rstrip s) = Py.strip s.
Proof.
  unfold Py.strip. now rewrite lstrip_rstrip, rstrip_idempotent.
Qed.

Section SystemCommandFacts.
Variable R : Runtime.

(** X6.  A line made of the keyword "/system " in any mix of cases,
    followed by text that is not blank, sets the system prompt to that
    text with the blanks around it removed and its own case kept; with a
    context reset that returns, the transcript becomes one system turn
    with that text. *)
Theorem system_command_sets_stripped_text
  (st : chat_state R) (keyword text : string) :
  Py.lower keyword = "/system " ->
  all_space text = false ->
  try_body R st (Line (keyword ++ text)) = on_system R st (Py.strip text)
  /\ Py.strip text <> ""
  /\ forall h',
       clear_context R (handle R st) = (Returns tt, h') ->
       fst (fst (chat_iteration R st (Line (keyword ++ text))))
       = mk_chat R [system_turn (Py.strip text)] (Py.strip text) h'.
Proof.
  intros Hk Ht.
  assert (Hlen : String.length keyword = 8)
    by (rewrite <- length_lower, Hk; reflexivity).
  assert (Hstrip : Py.strip (keyword ++ text)
                   = (keyword ++ Py.rstrip text)%string).
  { unfold Py.strip.
    replace (Py.lstrip (keyword ++ text)) with (keyword ++ text)%string.
    - now apply rstrip_app_nonblank.
    - destruct keyword as [|c k]; [discriminate Hk|].
      cbn [Py.lower] in Hk. inversion Hk as [[Hc Hrest]].
      apply lower_char_slash in Hc. subst c. reflexivity. }
  assert (Hsys : Py.startswith (Py.lower (Py.strip (keyword ++ text)))
                               "/system " = true).
  { unfold Py.startswith. rewrite Hstrip, lower_append, Hk.
    apply prefix_iff. eexists. reflexivity. }
  assert (Harg : Py.strip (Py.slice_from 8 (Py.strip (keyword ++ text)))
                 = Py.strip text).
  { rewrite Hstrip, <- Hlen, slice_from_append. apply strip_rstrip. }
  assert (Hne : Py.strip text <> "")
    by (rewrite strip_empty_iff; congruence).
  split; [|split; [exact Hne|]].
  - now rewrite (try_body_system R st _ Hsys), Harg.
  - intros h' Hreset. unfold chat_iteration.
    rewrite (try_body_system R st _ Hsys), Harg. unfold on_system.
    apply String.eqb_neq in Hne. rewrite Hne, Hreset. reflexivity.
Qed.

(** X7.  When the context reset of a [/system] command raises, the new
    prompt is already the active one while the transcript keeps its old
    system turn; the failure is reported as a generation error and the
    loop goes on.  The next [/clear] whose reset returns puts the new
    prompt into the transcript. *)
Theorem system_prompt_changes_even_if_reset_fails
  (st : chat_state R) (raw msg : string) (h' : llm R) :
  Py.startswith (Py.lower (Py.strip raw)) "/system " = true ->
  clear_context R (handle R st) = (Raises msg, h') ->
  let new_system := Py.strip (Py.slice_from 8 (Py.strip raw)) in
  let st' := mk_chat R (conversation R st) new_system h' in
  chat_iteration R st (Line raw)
  = (st',
     [Input chat_prompt; Call LLM_clear_context;
      LogError ("Error generating response: " ++ msg);
      Print (Py.nl ++ "Error: " ++ msg ++ Py.nl)],
     Return Continue)
  /\ forall raw2 h'',
       Py.lower (Py.strip raw2) = "/clear" ->
       clear_context R h' = (Returns tt, h'') ->
       fst (fst (chat_iteration R st' (Line raw2)))
       = mk_chat R [system_turn new_system] new_system h''.
Proof.
  intros Hsys Hfail new_system st'. split.
  - unfold chat_iteration. rewrite (try_body_system R st raw Hsys).
    unfold on_system. rewrite (usage_hint_unreachable raw Hsys), Hfail.
    reflexivity.
  - intros raw2 h'' Hclear Hok. unfold chat_iteration.
    rewrite (try_body_clear R st' raw2 Hclear). unfold on_clear.
    cbn [handle st']. rewrite Hok. reflexivity.
Qed.
End SystemCommandFacts.

Lemma system_command_sets_stripped_text_witness :
  let R := Stub.runtime Stub.healthy in
  let st := initial_chat R [] default_system_prompt in
  try_body R st (Line "/SyStEm    Answer in French.  ")
  = on_system R st "Answer in French.".
Proof.
  intros R st.
  exact (proj1 (system_command_sets_stripped_text
                  R st "/SyStEm " "   Answer in French.  "
                  eq_refl eq_refl)).
Defined.

Lemma system_prompt_changes_even_if_reset_fails_witness :
  let R := stub_busy_once in
  let st := mk_chat R [system_turn "Be brief."; mk_turn user "hello";
                       mk_turn assistant "hi there"] "Be brief." true in
  fst (fst (chat_iteration R st (Line "/system Be kind.")))
  = mk_chat R [system_turn "Be brief."; mk_turn user "hello";
               mk_turn assistant "hi there"] "Be kind." false
  /\ fst (fst (chat_iteration R
                 (fst (fst (chat_iteration R st (Line "/system Be kind."))))
                 (Line "/clear")))
     = mk_chat R [system_turn "Be kind."] "Be kind." false.
Proof.
  intros R st.
  pose proof (system_prompt_changes_even_if_reset_fails
                R st "/system Be kind." "context busy" false
                eq_refl eq_refl) as [H1 H2].
  split.
  - rewrite H1. reflexivity.
  - rewrite H1. exact (H2 "/clear" false eq_refl eq_refl).
Defined.

(** ** More on the response clean-up *)

Lemma first_piece_is_prefix (sep s : string) :
  exists rest, s = (first_piece sep s ++ rest)%string.
Proof.
  induction s as [|c r [rest IH]]; [now exists ""|].
  rewrite first_piece_cons.
  destruct (String.prefix sep (String c r)).
  - now exists (String c r).
  - exists rest. cbn [append]. now rewrite <- IH.
Qed.

Lemma first_piece_has_no_separator (sep s : string) :
  sep <> "" -> forall a b, first_piece sep s <> (a ++ sep ++ b)%string.
Proof.
  intros Hsep. induction s as [|c r IH]; intros a b H.
  - destruct a; [destruct sep; [congruence | discriminate H] | discriminate H].
  - rewrite first_piece_cons in H.
    destruct (String.prefix sep (String c r)) eqn:E.
    + destruct a; [destruct sep; [congruence | discriminate H] | discriminate H].
    + destruct a as [|c' a].
      * cbn [append] in H.
        destruct (first_piece_is_prefix sep r) as [rest Hr].
        assert (String.prefix sep (String c r) = true); [|congruence].
        apply prefix_iff. exists (b ++ rest)%string.
        rewrite Hr at 1.
        change (String c (first_piece sep r ++ rest))
          with (String c (first_piece sep r) ++ rest)%string.
        rewrite H. clear. induction sep; cbn [append]; congruence.
      * cbn [append] in H. inversion H. eapply IH. eassumption.
Qed.

(** X8.  The cleaned response is the beginning of the response, never
    contains the metadata marker, and cleaning it again changes nothing. *)
Theorem cleaned_response_is_marker_free (response : string) :
  (exists cut, response = (clean response ++ cut)%string)
  /\ (forall a b, clean response <> (a ++ metadata_marker ++ b)%string)
  /\ clean (clean response) = clean response.
Proof.
  assert (Hne : metadata_marker <> "") by discriminate.
  assert (Hfree : forall a b,
             clean response <> (a ++ metadata_marker ++ b)%string)
    by (apply (first_piece_has_no_separator metadata_marker response Hne)).
  split; [apply (first_piece_is_prefix metadata_marker)|].
  split; [exact Hfree|].
  apply (first_piece_whole metadata_marker). exact Hfree.
Qed.

(** ** More on the Model Selector *)

(** X9.  [select_model] returns only a model of its list, so on an empty
    list it never returns one; it reads its input from the front and gives
    back what it has not read; it lets nothing but [EOFError] and
    [KeyboardInterrupt] escape (the index it uses is always in range), its
    only exit code is 0, and it calls nothing in the runtime. *)
Theorem select_model_returns_listed_model
  (models : list Path) (inputs : list input_event) :
  let '(out, rest, r) := select_model models inputs in
  (forall model, r = Return model -> In model models)
  /\ (models = [] -> forall model, r <> Return model)
  /\ (exists read, inputs = read ++ rest)
  /\ match r with
     | Raise e => e = EOFError \/ e = KeyboardInterrupt
     | Exit code => code = 0%Z
     | _ => True
     end
  /\ calls_of out = [].
Proof.
  assert (Hloop : let '(_, rest, r) := select_loop models inputs in
                  (forall model, r = Return model -> In model models)
                  /\ exists read, inputs = read ++ rest).
  { induction inputs as [|ev inputs IH].
    - split; [discriminate | now exists []].
    - destruct ev as [raw| |]; cbn [select_loop]; cbv zeta.
      2,3: (split; [discriminate | now eexists [_]]).
      destruct (select_loop models inputs) as [[out rest] r].
      destruct IH as [Hin [read Hread]].
      assert (Hnext : exists read', Line raw :: inputs = read' ++ rest)
        by (exists (Line raw :: read); now rewrite Hread).
      destruct (Py.lower (Py.strip raw) =? "q");
        [split; [discriminate | now eexists [_]]|].
      destruct (Py.int (Py.strip raw)) as [n|]; [|now split].
      destruct ((0 <=? n - 1) && (n - 1 <? Z.of_nat (List.length models)))%Z;
        [|now split].
      destruct (nth_error models (Z.to_nat (n - 1))) as [model|] eqn:En.
      + split; [|now eexists [_]].
        intros m Hm. inversion Hm; subst m. eapply nth_error_In, En.
      + split; [discriminate | now eexists [_]]. }
  pose proof (select_model_outcome models inputs) as Hout.
  unfold select_model in *.
  destruct (select_loop models inputs) as [[out rest] r].
  destruct Hloop as [Hin Hread]. destruct Hout as [Hr [_ Hc]].
  split; [exact Hin|]. split.
  - intros -> model Hm. exact (Hin model Hm).
  - split; [exact Hread|]. split; [|exact Hc].
    destruct r; auto.
Qed.









(** ** More on the Model Locator *)

Lemma permutation_filter {A : Type} (f : A -> bool) (l l' : list A) :
  Permutation l l' -> Permutation (filter f l) (filter f l').
Proof.
  induction 1 as [|x l l' _ IH|x y l|l l' l'' _ IH1 _ IH2]; cbn [filter].
  - constructor.
  - destruct (f x); [now constructor | exact IH].
  - destruct (f x), (f y); try reflexivity. apply perm_swap.
  - now transitivity (filter f l').
Qed.

Lemma nodup_map_filter {A B : Type} (g : A -> B) (f : A -> bool) (l : list A) :
  NoDup (map g l) -> NoDup (map g (filter f l)).
Proof.
  induction l as [|x l IH]; cbn [map filter]; intros H; [constructor|].
  inversion H as [|? ? Hx Hl]; subst.
  destruct (f x); [|now apply IH]. cbn [map]. constructor; [|now apply IH].
  intros Hin. apply Hx. apply in_map_iff in Hin.
  destruct Hin as [y [Hy Hin]]. apply filter_In in Hin.
  apply in_map_iff. exists y. now split.
Qed.

Section SortedUnique.
Context {A : Type} (key : A -> string).

(** Two sorted lists with the same elements and pairwise different keys
    are the same list. *)
Lemma sorted_perm_unique (l1 l2 : list A) :
  StronglySorted (fun a b => String.leb (key a) (key b) = true) l1 ->
  StronglySorted (fun a b => String.leb (key a) (key b) = true) l2 ->
  Permutation l1 l2 -> NoDup (map key l1) -> l1 = l2.
Proof.
  revert l2. induction l1 as [|x l1 IH]; intros l2 S1 S2 P N.
  - apply Permutation_nil in P. now subst.
  - destruct l2 as [|y l2].
    + apply Permutation_sym, Permutation_nil in P. discriminate P.
    + inversion S1 as [|? ? S1' F1]; subst.
      inversion S2 as [|? ? S2' F2]; subst.
      inversion N as [|? ? Nx N']; subst.
      assert (Hxy : x = y).
      { assert (Hy : In y (x :: l1))
          by (apply (Permutation_in _ (Permutation_sym P)); now left).
        destruct Hy as [Hy|Hy]; [exact Hy|].
        assert (Hx : In x (y :: l2))
          by (apply (Permutation_in _ P); now left).
        destruct Hx as [Hx|Hx]; [now symmetry|].
        exfalso. apply Nx.
        assert (Hk : key x = key y).
        { apply String.leb_antisym.
          - exact (proj1 (Forall_forall _ _) F1 y Hy).
          - exact (proj1 (Forall_forall _ _) F2 x Hx). }
        rewrite Hk. now apply in_map. }
      subst y. f_equal. apply IH; try assumption.
      now apply Permutation_cons_inv in P.
Qed.
End SortedUnique.

(** X11.  The result of the Locator does not depend on the order in which
    the directory is scanned: two scans of the same entries give the same
    models, and the very same list when the lower-cased stems of the
    entries are pairwise different (ties are the only place where the scan
    order shows). *)
Theorem locator_ignores_scan_order
  (D : Defines) (entries1 entries2 : list string) :
  Permutation entries1 entries2 ->
  Permutation (get_downloaded_llm_models D (Directory entries1))
              (get_downloaded_llm_models D (Directory entries2))
  /\ (NoDup (map entry_key entries1) ->
      get_downloaded_llm_models D (Directory entries1)
      = get_downloaded_llm_models D (Directory entries2)).
Proof.
  intros P.
  unfold get_downloaded_llm_models, glob_suffix. cbn [dir_exists negb].
  set (ends := fun n => Py.endswith n HAILO_FILE_EXTENSION).
  set (J := joinpath (models_dir D)).
  assert (Pc : Permutation (filter looks_like_llm (map J (filter ends entries1)))
                           (filter looks_like_llm (map J (filter ends entries2))))
    by (apply permutation_filter, Permutation_map, permutation_filter, P).
  assert (Ps : Permutation
                 (Py.sorted sort_key
                    (filter looks_like_llm (map J (filter ends entries1))))
                 (Py.sorted sort_key
                    (filter looks_like_llm (map J (filter ends entries2))))).
  { rewrite !sorted_perm. exact Pc. }
  split; [exact Ps|]. intros N.
  apply (sorted_perm_unique sort_key); try apply sorted_sorted; [exact Ps|].
  eapply Permutation_NoDup;
    [apply Permutation_map, Permutation_sym, sorted_perm|].
  rewrite filter_map_swap, map_map.
  change (fun x => sort_key (J x)) with entry_key.
  now apply nodup_map_filter, nodup_map_filter.
Qed.

Lemma locator_ignores_scan_order_witness :
  get_downloaded_llm_models Stub.defines
    (Directory [Stub.qwen; "yolov8n.hef"; Stub.llama])
  = get_downloaded_llm_models Stub.defines
      (Directory [Stub.llama; Stub.qwen; "yolov8n.hef"]).
Proof.
  refine (proj2 (locator_ignores_scan_order Stub.defines
                   [Stub.qwen; "yolov8n.hef"; Stub.llama]
                   [Stub.llama; Stub.qwen; "yolov8n.hef"] _) _).
  - apply Permutation_sym. apply (Permutation_cons_app [_; _] [] _).
    reflexivity.
  - repeat constructor; cbn; intuition discriminate.
Defined.

(** ** More on the entry point *)

(** [str(Path(s)) == s] *)
Lemma Path_str_of (s : string) : Path_str (Path_of s) = s.
Proof.
  unfold Path_of, Path_str.
  destruct (Py.rfind "/" s) as [i|]; cbn [parent name]; [|reflexivity].
  apply slice_to_from.
Qed.

Section EntryFacts.
Variable D : Defines.
Variable R : Runtime.
Variable fs : FileSystem.

Example pathlib_normal_ex :
  map pathlib_normal
      ["model.hef"; "models/qwen"; "/opt/m/qwen.hef"; "a/../b"; ".cache/m";
       "./model.hef"; "models/qwen.hef/"; "a//b"; "//a"; "a/./b"; "a/.";
       "."; "/"; ""]
  = [true; true; true; true; true;
     false; false; false; false; false; false; false; false; false].
Proof. reflexivity. Qed.

(** The final component of a path in normal form is not empty. *)
Lemma components_ok_name (s : string) (seen : component) :
  components_ok seen s = true -> s <> "" -> name (Path_of s) <> "".
Proof.
  revert seen. induction s as [|c r IH]; intros seen H Hne; [congruence|].
  clear Hne. unfold Path_of. cbn [Py.rfind components_ok] in *.
  destruct (Py.rfind "/" r) as [i|] eqn:Er.
  - cbn [name Py.slice_from].
    assert (Hr : r <> "") by (destruct r; [discriminate Er | discriminate]).
    assert (Hn : name (Path_of r) <> "").
    { destruct (c =? "/")%char.
      - destruct seen; try discriminate H. exact (IH _ H Hr).
      - destruct seen; exact (IH _ H Hr). }
    unfold Path_of in Hn. rewrite Er in Hn. exact Hn.
  - destruct (c =? "/")%char; cbn [name Py.slice_from]; [|discriminate].
    destruct seen; try discriminate H. destruct r; [discriminate H | discriminate].
Qed.

Lemma components_ok_append_ext (s : string) (seen : component) :
  components_ok seen s = true ->
  components_ok seen (s ++ HAILO_FILE_EXTENSION) = true.
Proof.
  revert seen. induction s as [|c r IH]; intros seen H.
  - destruct seen; [discriminate H | discriminate H | reflexivity].
  - cbn [append components_ok] in *.
    destruct (c =? "/")%char.
    + destruct seen; try discriminate H. now apply IH.
    + destruct seen; now apply IH.
Qed.

Lemma pathlib_normal_facts (s : string) :
  pathlib_normal s = true ->
  s <> ""
  /\ name (Path_of s) <> ""
  /\ pathlib_normal (s ++ HAILO_FILE_EXTENSION) = true.
Proof.
  destruct s as [|c r]; [discriminate|]. intros H.
  split; [discriminate|]. unfold pathlib_normal in *. cbn [append].
  destruct (c =? "/")%char eqn:Ec.
  - split; [|now apply components_ok_append_ext].
    apply (components_ok_name (String c r) Named); [|discriminate].
    cbn [components_ok]. now rewrite Ec.
  - split; [now apply (components_ok_name (String c r) AtStart)|].
    now apply (components_ok_append_ext (String c r)).
Qed.

(** X12.  For a [--hef-path] in pathlib's normal form (no "." component,
    no doubled or trailing separator, so that [Path] keeps the string as
    it is): the models directory is not looked at and nothing is asked or
    read.  A path that exists is used exactly as given, whatever its
    extension, even if the path with the extension exists too; otherwise
    the path with the extension appended is used if that exists, and else
    the start fails with [sys.exit(1)].  The path handed on exists, is
    again in normal form, prints back as the string that was found to
    exist, and has a final component that is not empty. *)
Theorem explicit_path_is_used_as_found
  (args : Args) (inputs : list input_event) (given : string) :
  hef_path args = Some given ->
  pathlib_normal given = true ->
  let with_ext := (given ++ HAILO_FILE_EXTENSION)%string in
  let '(out, rest, r) := find_or_select D fs args inputs in
  rest = inputs
  /\ prompts_of out = []
  /\ r = (if path_exists fs given then Return (Path_of given)
          else if path_exists fs with_ext then Return (Path_of with_ext)
          else Exit 1%Z)
  /\ (forall p, r = Return p ->
                path_exists fs (Path_str p) = true
                /\ (Path_str p = given \/ Path_str p = with_ext)
                /\ pathlib_normal (Path_str p) = true
                /\ name p <> "")
  /\ forall fs',
       (forall p, path_exists fs' p = path_exists fs p) ->
       find_or_select D fs' args inputs = find_or_select D fs args inputs.
Proof.
  intros Hg Hnormal. cbv zeta.
  destruct (pathlib_normal_facts given Hnormal) as [Hne [Hname Hext]].
  destruct (pathlib_normal_facts _ Hext) as [_ [Hname_ext _]].
  assert (Hind : forall fs',
             (forall p, path_exists fs' p = path_exists fs p) ->
             find_or_select D fs' args inputs
             = find_or_select D fs args inputs).
  { intros fs' Hsame. rewrite !(find_or_select_given D _ args inputs given Hg Hne).
    unfold resolve. now rewrite !Hsame. }
  pose proof (find_or_select_given D fs args inputs given Hg Hne) as Hval.
  rewrite Hval. unfold resolve in *.
  destruct (path_exists fs given) eqn:E1.
  - rewrite E1 in *. cbn [negb] in *.
    split; [reflexivity|]. split; [reflexivity|]. split; [reflexivity|].
    split; [|intros fs' Hs; now rewrite (Hind fs' Hs)].
    intros q Hq. inversion Hq; subst q. rewrite Path_str_of. auto.
  - destruct (path_exists fs (given ++ HAILO_FILE_EXTENSION)) eqn:E2;
      cbn [negb] in *;
      (split; [reflexivity|]; split; [reflexivity|]; split; [reflexivity|];
       split; [|intros fs' Hs; now rewrite (Hind fs' Hs)]).
    + intros q Hq. inversion Hq; subst q. rewrite Path_str_of. auto.
    + intros q Hq. discriminate Hq.
Qed.

Lemma teardown_calls (l : option (llm R)) (v : option (vdevice R)) :
  calls_of (teardown R l v)
  = match l with
    | Some h =>
        match clear_context R h with
        | (Returns _, _) => [LLM_clear_context; LLM_release]
        | (Raises _, _) => [LLM_clear_context]
        end
    | None => []
    end
    ++ match v with
       | Some _ => [VDevice_release]
       | None => []
       end.
Proof.
  unfold teardown. rewrite calls_of_app.
  destruct l as [h|]; [destruct (clear_context R h) as [[[]|?] h'];
                       [destruct (llm_release R h')|]|];
    (destruct v as [d|]; [destruct (vdevice_release R d)|]); reflexivity.
Qed.

(** X13.  When acquiring the handles fails, [main] releases exactly what
    it had acquired and ends with [sys.exit(1)] after logging the error:
    nothing is released when the device parameters or the device cannot
    be created; when the model cannot be loaded, the device, and only the
    device, is released, once. *)
Theorem failed_acquisition_releases_what_it_got
  (args : Args) (inputs : list input_event)
  (out0 : list event) (rest : list input_event) (hef : Path) (msg : string) :
  find_or_select D fs args inputs = (out0, rest, Return hef) ->
  let run := main D R fs args inputs in
  let group := SHARED_VDEVICE_GROUP_ID D in
  (create_params R = Raises msg ->
   calls_of (fst run) = [VDevice_create_params])
  /\ (forall u, create_params R = Returns u ->
                VDevice R group = Raises msg ->
                calls_of (fst run)
                = [VDevice_create_params; VDevice_init group])
  /\ (forall u v, create_params R = Returns u ->
                  VDevice R group = Returns v ->
                  LLM R v (Path_str hef) = Raises msg ->
                  calls_of (fst run)
                  = [VDevice_create_params; VDevice_init group;
                     LLM_init (Path_str hef); VDevice_release])
  /\ (acquisition_raises D R hef = true ->
      snd run = Exit 1%Z
      /\ exists why, In (LogError ("Error occurred: " ++ why)) (fst run)).
Proof.
  intros Hsel. cbv zeta.
  pose proof (find_or_select_outcome D fs args inputs) as Ho.
  rewrite Hsel in Ho. destruct Ho as [_ [_ Hc0]].
  unfold main. rewrite Hsel. unfold bootstrap_and_chat, acquisition_raises.
  repeat apply conj.
  - intros ->. cbn [except_finally is_Exception fst].
    rewrite !calls_of_app, Hc0, teardown_calls. reflexivity.
  - intros u -> ->. cbn [except_finally is_Exception fst].
    rewrite !calls_of_app, Hc0, teardown_calls. reflexivity.
  - intros u v -> -> ->. cbn [except_finally is_Exception fst].
    rewrite !calls_of_app, Hc0, teardown_calls. reflexivity.
  - destruct (create_params R) as [u|m1].
    + destruct (VDevice R (SHARED_VDEVICE_GROUP_ID D)) as [v|m2].
      * destruct (LLM R v (Path_str hef)) as [h|m3]; [discriminate|].
        intros _. cbn [except_finally is_Exception fst snd].
        split; [reflexivity|]. exists m3.
        rewrite !in_app_iff. right; right; left. now left.
      * intros _. cbn [except_finally is_Exception fst snd].
        split; [reflexivity|]. exists m2.
        rewrite !in_app_iff. right; right; left. now left.
    + intros _. cbn [except_finally is_Exception fst snd].
      split; [reflexivity|]. exists m1.
      rewrite !in_app_iff. right; right; left. now left.
Qed.

(** X14.  Once both handles are acquired, the calls [main] makes into the
    runtime are, in this order: the three acquisition calls; the calls of
    the chat loop, which are generation calls and context resets only; and,
    unless the program is still waiting for input, the teardown.  So each
    handle is released at most once, nothing is called on the model after
    its release, and nothing at all after the release of the device. *)
Theorem main_call_protocol
  (args : Args) (inputs : list input_event)
  (out0 : list event) (rest : list input_event) (hef : Path) :
  find_or_select D fs args inputs = (out0, rest, Return hef) ->
  acquisition_raises D R hef = false ->
  let run := main D R fs args inputs in
  exists chat_calls closing,
    calls_of (fst run)
    = [VDevice_create_params; VDevice_init (SHARED_VDEVICE_GROUP_ID D);
       LLM_init (Path_str hef)] ++ chat_calls ++ closing
    /\ forallb is_chat_call chat_calls = true
    /\ (snd run = Blocked -> closing = [])
    /\ (snd run <> Blocked ->
        closing = full_teardown
        \/ closing = [LLM_clear_context; VDevice_release]).
Proof.
  intros Hsel Hacq. cbv zeta.
  pose proof (find_or_select_outcome D fs args inputs) as Ho.
  rewrite Hsel in Ho. destruct Ho as [_ [_ Hc0]].
  unfold main. rewrite Hsel.
  unfold bootstrap_and_chat, acquisition_raises in *.
  destruct (create_params R) as [u|m1]; [|discriminate Hacq].
  destruct (VDevice R (SHARED_VDEVICE_GROUP_ID D)) as [v|m2];
    [|discriminate Hacq].
  destruct (LLM R v (Path_str hef)) as [h|m3]; [|discriminate Hacq].
  unfold interactive_chat.
  pose proof (chat_loop_calls R rest (initial_chat R h (system_prompt args)))
    as Hcalls.
  pose proof (chat_loop_ends R rest (initial_chat R h (system_prompt args)))
    as Hend.
  destruct (chat_loop R (initial_chat R h (system_prompt args)) rest)
    as [[[st out] rest'] r].
  cbn [fst snd] in Hcalls, Hend.
  exists (calls_of out).
  destruct Hend as [-> | ->]; cbn [except_finally fst snd].
  - exists (calls_of (teardown R (Some (handle R st)) (Some v))).
    rewrite !calls_of_app, Hc0. split; [reflexivity|]. split; [exact Hcalls|].
    split; [discriminate|]. intros _. rewrite teardown_calls.
    destruct (clear_context R (handle R st)) as [[[]|?] ?]; auto.
  - exists []. rewrite !calls_of_app, Hc0. split; [reflexivity|].
    split; [exact Hcalls|]. split; [reflexivity | congruence].
Qed.
End EntryFacts.

Lemma explicit_path_is_used_as_found_witness :
  let '(out, rest, r) :=
    find_or_select Stub.defines (stub_fs_hef_only "models/qwen.hef")
                   {| hef_path := Some "models/qwen";
                      system_prompt := default_system_prompt |}
                   [Line "hello"] in
  rest = [Line "hello"] /\ prompts_of out = []
  /\ r = Return (mk_Path "models/" "qwen.hef").
Proof.
  pose proof (explicit_path_is_used_as_found
                Stub.defines (stub_fs_hef_only "models/qwen.hef")
                {| hef_path := Some "models/qwen";
                   system_prompt := default_system_prompt |}
                [Line "hello"] "models/qwen" eq_refl eq_refl) as H.
  cbv zeta in H.
  destruct (find_or_select Stub.defines (stub_fs_hef_only "models/qwen.hef")
              {| hef_path := Some "models/qwen";
                 system_prompt := default_system_prompt |} [Line "hello"])
    as [[out rest] r].
  destruct H as [H1 [H2 [H3 _]]]. split; [exact H1|]. split; [exact H2|].
  exact H3.
Defined.

Lemma failed_acquisition_releases_what_it_got_witness :
  let run := main Stub.defines (Stub.runtime stub_no_model)
                  (Stub.fs_with [Stub.qwen]) Stub.no_args [] in
  calls_of (fst run)
  = [VDevice_create_params; VDevice_init "SHARED";
     LLM_init "/usr/local/hailo/resources/models/hailo10h/Qwen2.5-1.5B-Instruct.hef";
     VDevice_release].
Proof.
  exact (proj1 (proj2 (proj2 (failed_acquisition_releases_what_it_got
                                Stub.defines (Stub.runtime stub_no_model)
                                (Stub.fs_with [Stub.qwen]) Stub.no_args []
                                _ _ _ "model not compatible" eq_refl)))
               tt tt eq_refl eq_refl eq_refl).
Defined.

Lemma main_call_protocol_witness :
  let run := main Stub.defines (Stub.runtime Stub.healthy)
                  (Stub.fs_with [Stub.qwen]) Stub.no_args
                  [Line "hello"; Line "/clear"; Line "/quit"] in
  exists chat_calls closing,
    calls_of (fst run)
    = [VDevice_create_params; VDevice_init "SHARED";
       LLM_init (Path_str (joinpath (models_dir Stub.defines) Stub.qwen))]
      ++ chat_calls ++ closing
    /\ forallb is_chat_call chat_calls = true
    /\ (snd run = Blocked -> closing = [])
    /\ (snd run <> Blocked ->
        closing = full_teardown
        \/ closing = [LLM_clear_context; VDevice_release]).
Proof.
  exact (main_call_protocol Stub.defines (Stub.runtime Stub.healthy)
           (Stub.fs_with [Stub.qwen]) Stub.no_args
           [Line "hello"; Line "/clear"; Line "/quit"] _ _ _
           eq_refl eq_refl).
Defined.

(** X15.  The system prompt given on the command line is what the model
    is prompted with: when the start succeeds and the first line typed is
    an utterance, the first call after the acquisition is the generation
    call on the configured system turn followed by the stripped line as
    user turn, with the fixed sampling parameters. *)
Theorem first_utterance_carries_configured_prompt
  (D : Defines) (R : Runtime) (fs : FileSystem) (args : Args)
  (inputs : list input_event) (out0 : list event) (hef : Path)
  (raw : string) (more : list input_event) :
  find_or_select D fs args inputs = (out0, Line raw :: more, Return hef) ->
  acquisition_raises D R hef = false ->
  is_utterance (Py.strip raw) = true ->
  exists later,
    calls_of (fst (main D R fs args inputs))
    = [VDevice_create_params; VDevice_init (SHARED_VDEVICE_GROUP_ID D);
       LLM_init (Path_str hef);
       LLM_generate_all [system_turn (system_prompt args);
                         mk_turn user (Py.strip raw)]
                        temperature max_generated_tokens]
      ++ later.
Proof.
  intros Hsel Hacq Hutt.
  pose proof (find_or_select_outcome D fs args inputs) as Ho.
  rewrite Hsel in Ho. destruct Ho as [_ [_ Hc0]].
  unfold main. rewrite Hsel.
  unfold bootstrap_and_chat, acquisition_raises in *.
  destruct (create_params R) as [u|m1]; [|discriminate Hacq].
  destruct (VDevice R (SHARED_VDEVICE_GROUP_ID D)) as [v|m2];
    [|discriminate Hacq].
  destruct (LLM R v (Path_str hef)) as [h|m3]; [|discriminate Hacq].
  unfold interactive_chat. cbn [chat_loop].
  pose proof (chat_iteration_calls
                R (initial_chat R h (system_prompt args)) raw) as Hcall.
  cbv zeta in Hcall. rewrite Hutt in Hcall.
  pose proof (chat_iteration_flow
                R (initial_chat R h (system_prompt args)) (Line raw)) as Hflow.
  assert (Hq : ends_loop (Line raw) = false).
  { unfold is_utterance in Hutt. rewrite !andb_true_iff in Hutt.
    destruct Hutt as [[[_ Hq] _] _]. now apply negb_true_iff in Hq. }
  rewrite Hq in Hflow.
  destruct (chat_iteration R (initial_chat R h (system_prompt args)) (Line raw))
    as [[st1 out1] r1].
  cbn [fst snd] in Hcall, Hflow. subst r1.
  destruct (chat_loop R st1 more) as [[[st2 out2] rest2] r2].
  destruct (except_finally R (Some (handle R st2)) (Some v) r2) as [out3 r3].
  cbn [fst]. exists (calls_of out2 ++ calls_of out3).
  rewrite !calls_of_app, Hc0, Hcall. reflexivity.
Qed.

Lemma first_utterance_carries_configured_prompt_witness :
  exists later,
    calls_of (fst (main Stub.defines (Stub.runtime Stub.healthy)
                        (Stub.fs_with [Stub.qwen])
                        {| hef_path := None; system_prompt := "Be brief." |}
                        [Line "  Why is the sky blue? "]))
    = [VDevice_create_params; VDevice_init "SHARED";
       LLM_init (Path_str (joinpath (models_dir Stub.defines) Stub.qwen));
       LLM_generate_all [system_turn "Be brief.";
                         mk_turn user "Why is the sky blue?"]
                        temperature max_generated_tokens]
      ++ later.
Proof.
  exact (first_utterance_carries_configured_prompt
           Stub.defines (Stub.runtime Stub.healthy) (Stub.fs_with [Stub.qwen])
           {| hef_path := None; system_prompt := "Be brief." |}
           [Line "  Why is the sky blue? "] _ _
           "  Why is the sky blue? " [] eq_refl eq_refl eq_refl).
Defined.
